(** * Performance-telemetry analysis scripts (perftools)

    A shallow embedding of [perftools/analyze_filetype.py] and
    [perftools/compare_datasets.py], and the properties of their selector,
    stage aggregator and comparator.

    Conventions of the embedding.
    - JSON integers are [Z]; a Python float is given by its exact value: a
      rational [Q] wherever the code only adds, subtracts, multiplies and
      divides, and a real [R] from the square root of
      [coefficient_of_variation] on.
    - The values that the reports print are the exact ones: their rounding
      to a double is not modelled, and a comparison of two floats is the
      comparison of their exact values.  The index of [get_percentile] is
      the exception: it is a truncated product of two doubles, and the
      rounding of the product decides which element is read.  That product
      is rounded as IEEE binary64 does: [round_double], [float_mul].
    - Python's [/] raises [ZeroDivisionError] on a zero divisor; this is
      [py_div].  Divisions by a non-zero literal are plain divisions.  The
      true division of two integers also raises [OverflowError] when the
      quotient is beyond the largest double, 1.8e308; [py_div] has no such
      case, and the properties that list every outcome of a run are stated
      for 64-bit values ([machine_sized]), which stay far below it.
    - [print] appends a [line] to the output; a line carries the values that
      the format string receives, not their fixed-width rendering.
    - Strings are sequences of 8-bit characters; [str.upper] maps a-z to A-Z
      and leaves every other character alone. *)

From Stdlib Require Import ZArith QArith Qround Qabs Qpower Qreals Reals.
From Stdlib Require Import Lia Lra.
From Stdlib Require Lqa.
From Stdlib Require Import Ascii String.
From Stdlib Require Import Sorting.Sorted Permutation.
From stdpp Require Import base list strings gmap.

Local Open Scope Z_scope.

(** ** Exceptions and the two monads of the scripts *)

Inductive exn : Type :=
  | ZeroDivisionError
  | KeyError (key : string)
  | IndexError
  | TypeError
  | OverflowError
  | AttributeError
  | FileNotFoundError (name : string)
  | SystemExit (code : Z).

Inductive result (A : Type) : Type :=
  | Ok (a : A)
  | Raise (e : exn).
Arguments Ok {A} a.
Arguments Raise {A} e.

#[global] Instance result_ret : MRet result := fun A a => Ok a.
#[global] Instance result_bind : MBind result := fun A B f r =>
  match r with
  | Ok a => f a
  | Raise e => Raise e
  end.

#[global] Instance result_fmap : FMap result := fun A B f r =>
  match r with
  | Ok a => Ok (f a)
  | Raise e => Raise e
  end.

(** A run of a script: what was printed so far, and how the run ended. *)
Definition io (L A : Type) : Type := (list L * result A)%type.

Section Io.
Context {L : Type}.

#[global] Instance io_ret : MRet (io L) := fun A a => ([], Ok a).

#[global] Instance io_bind : MBind (io L) := fun A B f m =>
  match m with
  | (o, Ok a) => let rest := f a in (o ++ fst rest, snd rest)
  | (o, Raise e) => (o, Raise e)
  end.

Definition print (l : L) : io L unit := ([l], Ok tt).

Definition lift {A} (r : result A) : io L A := ([], r).

Definition output {A} (m : io L A) : list L := fst m.
Definition outcome {A} (m : io L A) : result A := snd m.
End Io.

(** ** Strings *)

Definition upper_ascii (c : ascii) : ascii :=
  let n := N_of_ascii c in
  if ((97 <=? n) && (n <=? 122))%N then ascii_of_N (n - 32) else c.

(** [str.upper] *)
Fixpoint upper (s : string) : string :=
  match s with
  | EmptyString => EmptyString
  | String c s' => String (upper_ascii c) (upper s')
  end.

(** [s.startswith(pre)] *)
Fixpoint startswith (s pre : string) {struct pre} : bool :=
  match pre, s with
  | EmptyString, _ => true
  | String _ _, EmptyString => false
  | String a pre', String b s' => Ascii.eqb a b && startswith s' pre'
  end.

Fixpoint string_drop (n : nat) (s : string) : string :=
  match n, s with
  | O, _ => s
  | S _, EmptyString => EmptyString
  | S n', String _ s' => string_drop n' s'
  end.

(** [s.endswith(suf)]: the last [len(suf)] characters of [s] are [suf]. *)
Definition endswith (s suf : string) : bool :=
  (String.length suf <=? String.length s)%nat
  && String.eqb (string_drop (String.length s - String.length suf) s) suf.

(** [sub in s] on two strings *)
Fixpoint contains (s sub : string) : bool :=
  startswith s sub
  || match s with
     | EmptyString => false
     | String _ s' => contains s' sub
     end.

(** ** Data model *)

Record PhotoRecord : Type := {
  FilePath : string;
  FileSize : Z;
  HashTime : Z;
  MetadataTime : Z;
  ImageDecodeTime : Z;
  ThumbnailTime : Z;
  ColorTime : Z;
  PerceptualHashTime : Z;
  InferenceTime : Z;
  DatabaseTime : Z;
  TotalTime : Z
}.

(** A perfstats document: [data['summary']] is a JSON object of numbers,
    [data['detailed']] the list of per-photo records. *)
Record Dataset : Type := {
  summary : gmap string Q;
  detailed : list PhotoRecord
}.

(** The Python values that reach [filter_photos] from the command line. *)
Inductive pyval : Type :=
  | VNone
  | VBool (b : bool)
  | VStr (s : string).

Definition truthy (v : pyval) : bool :=
  match v with
  | VNone => false
  | VBool b => b
  | VStr s => negb (String.eqb s "")
  end.

(** [str(v)], as an f-string renders it *)
Definition py_str (v : pyval) : string :=
  match v with
  | VNone => "None"
  | VBool true => "True"
  | VBool false => "False"
  | VStr s => s
  end.

(** ** Selector: [filter_photos] *)

(** [x in s] for a string [s]: only a string is accepted on the left. *)
Definition py_in (x : pyval) (s : string) : result bool :=
  match x with
  | VStr sub => Ok (contains s sub)
  | _ => Raise TypeError
  end.

(** [x.startswith(pre)]: a method of [str] only. *)
Definition py_startswith (x : pyval) (pre : string) : result bool :=
  match x with
  | VStr s => Ok (startswith s pre)
  | _ => Raise AttributeError
  end.

(** [[p for p in l if cond(p)]] with a condition that may raise *)
Fixpoint comprehension {A} (cond : A -> result bool) (l : list A)
  : result (list A) :=
  match l with
  | [] => Ok []
  | p :: l' =>
      b ← cond p;
      match b with
      | true => (fun r => p :: r) <$> comprehension cond l'
      | false => comprehension cond l'
      end
  end.

(** [filter_photos(detailed, pattern, use_pattern=False)] *)
Definition filter_photos (detailed : list PhotoRecord)
    (pattern use_pattern : pyval) : result (list PhotoRecord) :=
  if truthy use_pattern then
    comprehension (fun p => py_in pattern (FilePath p)) detailed
  else
    (* Treat as file extension *)
    py_startswith pattern "." ≫= fun dotted : bool =>
    let ext := if dotted then py_str pattern
               else ("." ++ py_str pattern)%string in
    comprehension
      (fun p => Ok (endswith (upper (FilePath p)) (upper ext))) detailed.

(** *** What the selector is meant to keep *)

(** The pattern with a leading dot put in front when it has none. *)
Definition dot_normalized (pattern : string) : string :=
  match pattern with
  | String "."%char _ => pattern
  | _ => String "."%char pattern
  end.

(** [path] ends with the dot-normalized pattern, both sides in upper case. *)
Definition ends_with_ci (path pattern : string) : Prop :=
  exists front, upper path = (front ++ upper (dot_normalized pattern))%string.

(** [path] contains [pattern] literally. *)
Definition has_substring (path pattern : string) : Prop :=
  exists front back, path = (front ++ pattern ++ back)%string.

(** ** Numbers and sequences as Python has them *)

(** [a / b]: true division, [ZeroDivisionError] on a zero divisor.  The
    quotient is the exact one.  Of two integers Python also refuses a
    quotient beyond the largest double, with [OverflowError]: this needs an
    operand of more than 300 digits, and is left out. *)
Definition py_div (a b : Q) : result Q :=
  if Qeq_bool b 0 then Raise ZeroDivisionError else Ok (a / b)%Q.

(** [sum(...)]: left to right from 0. *)
Definition sum_Z (l : list Z) : Z := foldl Z.add 0 l.
Definition sum_Q (l : list Q) : Q := foldl Qplus 0%Q l.

(** [int(x)] truncates towards zero. *)
Definition py_int (x : Q) : Z := Z.quot (Qnum x) (Zpos (Qden x)).

(** [l[i]]: a negative index counts from the end; out of range raises. *)
Definition py_getitem {A} (l : list A) (i : Z) : result A :=
  let n := Z.of_nat (length l) in
  let j := if i <? 0 then n + i else i in
  if (j <? 0) || (n <=? j) then Raise IndexError
  else match l !! Z.to_nat j with
       | Some x => Ok x
       | None => Raise IndexError
       end.

(** [len(l)] as a number *)
Definition len {A} (l : list A) : Q := inject_Z (Z.of_nat (length l)).

(** [sorted(l, key=key, reverse=reverse)]: a stable sort.  [x], which stood
    before every element of the already sorted rest, is put in front of the
    first [y] it does not have to follow. *)
Fixpoint insert_sorted {A} (before : A -> A -> bool) (x : A) (l : list A)
  : list A :=
  match l with
  | [] => [x]
  | y :: l' => if before x y then x :: y :: l'
               else y :: insert_sorted before x l'
  end.

Definition py_sorted {A K} (le : K -> K -> bool) (key : A -> K)
    (reverse : bool) (l : list A) : list A :=
  foldr (insert_sorted (fun x y => if reverse then le (key y) (key x)
                                   else le (key x) (key y))) [] l.

Definition Rle_bool (a b : R) : bool := if Rle_dec a b then true else false.

(** [for x in l: body(x)] *)
Fixpoint for_each {L A} (l : list A) (body : A -> io L unit) : io L unit :=
  match l with
  | [] => mret tt
  | x :: l' => body x ;; for_each l' body
  end.

(** ** Doubles

    A finite double is given by its exact value, a rational.  A double has 53
    significant bits; its last bit is worth at least 2^-1074, and it is
    infinite from 2^1024 on. *)

(** The nearest integer, a tie going to the even one. *)
Definition round_half_even (x : Q) : Z :=
  let f := Qfloor x in
  match (x - inject_Z f ?= 1 # 2)%Q with
  | Lt => f
  | Eq => if Z.even f then f else f + 1
  | Gt => f + 1
  end.

(** [floor(log2(x))] of a positive [x]: the difference of the bit lengths of
    numerator and denominator, or one less. *)
Definition ilog2 (x : Q) : Z :=
  let e := Z.log2 (Qnum x) - Z.log2 (Zpos (Qden x)) in
  if Qle_bool (2 ^ e) x then e else e - 1.

(** The exponent of the last bit of the doubles next to [x]. *)
Definition ulp_exponent (x : Q) : Z := Z.max (ilog2 (Qabs x) - 52) (-1074).

(** The double nearest to [x], ties to even, before the check for
    overflow. *)
Definition round_double (x : Q) : Q :=
  if Qeq_bool x 0 then 0%Q
  else (inject_Z (round_half_even (x / 2 ^ ulp_exponent x))
        * 2 ^ ulp_exponent x)%Q.

(** [sys.maxsize]: no list is longer. *)
Definition sys_maxsize : Z := 2 ^ 63 - 1.

(** [len(l)] where it is an operand of a float operation: the length, at
    most [sys.maxsize], converted to the nearest double.  Far below 2^1024,
    the conversion does not overflow. *)
Definition float_len {A} (l : list A) : Q :=
  round_double (inject_Z (Z.min (Z.of_nat (length l)) sys_maxsize)).

(** [a * b] on doubles: the exact product, rounded; [None] is an infinity.
    Python raises nothing here. *)
Definition float_mul (a b : Q) : option Q :=
  let r := round_double (a * b) in
  if Qle_bool (2 ^ 1024) (Qabs r) then None else Some r.

(** [int(x)] of a double truncates; an infinity is an [OverflowError]. *)
Definition int_of_float (x : option Q) : result Z :=
  match x with
  | Some x => Ok (py_int x)
  | None => Raise OverflowError
  end.

(** ** Stage aggregator *)

(** [coefficient_of_variation(values)] on the raw nanosecond values.  The two
    divisions are behind the guards [len(values) >= 2] and [mean != 0].  Mean,
    variance and square root are the exact ones; the code computes them in
    doubles, where integers beyond 2^53 are no longer told apart. *)
Definition coefficient_of_variation (values : list Z) : R :=
  if (length values <? 2)%nat then 0%R
  else
    let mean := (inject_Z (sum_Z values) / len values)%Q in
    if Qeq_bool mean 0 then 0%R
    else
      let variance :=
        (sum_Q (map (fun v => (inject_Z v - mean) ^ 2) values) / len values)%Q in
      let std_dev := sqrt (Q2R variance) in
      ((std_dev / Q2R mean) * 100)%R.

(** [get_percentile(sorted_values, percentile)], for a float [percentile],
    given by its value.  Line 47 multiplies two doubles and truncates the
    rounded product. *)
Definition get_percentile (sorted_values : list Q) (percentile : Q)
  : result Q :=
  match sorted_values with
  | [] => Ok 0%Q
  | _ =>
      idx ← int_of_float (float_mul (float_len sorted_values) percentile);
      py_getitem sorted_values
        (Z.min idx (Z.of_nat (length sorted_values) - 1))
  end.

(** One printed line of the analysis report, with the values it formats. *)
Inductive line : Type :=
  | Text (s : string)
  | Rule (c : string) (width : nat)
  | Blank
  | Title (label : string) (n : nat)
  | CountLine (n : nat)
  | TotalSizeLine (mb : Q)
  | AvgFileSizeLine (mb : Q)
  | ThroughputLine (mbps : Q)
  | Columns (names : list string)
  | StageRow (name : string) (time_ms pct : Q)
  | TotalRow (avg_total : Q)
  | DistRow (name : string) (lo median p95 hi : Q)
  | CvRow (name : string) (cv : R).

Definition ms (ns : Z) : Q := (inject_Z ns / 1000000)%Q.

(** Lines 94-103: the stage table, in declaration order. *)
Definition stage_names : list string :=
  ["Hash"; "Metadata"; "Image Decode"; "Thumbnails"; "Color Extract";
   "Perceptual Hash"; "Inference"; "Database"].

(** Lines 107-109: one row of the average-timings table. *)
Definition stage_row (avg_total : Q) (stage : string * Q) : io line unit :=
  let '(name, time_ms) := stage in
  pct ← (if negb (Qle_bool avg_total 0)
         then lift (r ← py_div time_ms avg_total; Ok (r * 100)%Q)
         else mret 0%Q);
  print (StageRow name time_ms pct).

(** Lines 118-128: one row of the distribution table.  The literal [0.5] is
    a double; [0.95] denotes the double nearest to it. *)
Definition dist_row (name : string) (times : list Q) : io line unit :=
  lo ← lift (py_getitem times 0);
  median ← lift (get_percentile times (1 # 2));
  p95 ← lift (get_percentile times (round_double (95 # 100)));
  hi ← lift (py_getitem times (-1));
  print (DistRow name lo median p95 hi).

(** Lines 133-141: the stages whose variability is reported. *)
Definition variability (photos : list PhotoRecord) : list (string * R) :=
  [ ("Hash", coefficient_of_variation (map HashTime photos));
    ("Metadata", coefficient_of_variation (map MetadataTime photos));
    ("Image Decode", coefficient_of_variation (map ImageDecodeTime photos));
    ("Thumbnails", coefficient_of_variation (map ThumbnailTime photos));
    ("Color Extract", coefficient_of_variation (map ColorTime photos));
    ("Perceptual Hash",
       coefficient_of_variation (map PerceptualHashTime photos));
    ("Database", coefficient_of_variation (map DatabaseTime photos)) ].

(** Line 143: [sorted(variability, key=lambda x: x[1], reverse=True)] *)
Definition variability_ranking (photos : list PhotoRecord)
  : list (string * R) :=
  py_sorted Rle_bool snd true (variability photos).

(** Lines 76-84: [total / n / 1_000_000], nanoseconds to milliseconds, as
    the exact quotient. *)
Definition average_ms (photos : list PhotoRecord) (total : Z) : result Q :=
  r ← py_div (inject_Z total) (len photos);
  Ok (r / 1000000)%Q.

(** Lines 86-89: count, sizes and throughput. *)
Definition print_counts (photos : list PhotoRecord)
    (total_bytes total_time : Z) : io line unit :=
  print (CountLine (length photos)) ;;
  print (TotalSizeLine (inject_Z total_bytes / 1024 / 1024)%Q) ;;
  avg_size ← lift (r ← py_div (inject_Z total_bytes) (len photos);
                   Ok (r / 1024 / 1024)%Q);
  print (AvgFileSizeLine avg_size) ;;
  throughput ← lift (py_div (inject_Z total_bytes / 1024 / 1024)%Q
                            (inject_Z total_time / 1000000000)%Q);
  print (ThroughputLine throughput).

(** Lines 92-112: the average timings per photo. *)
Definition print_timings (avg_total : Q) (stages : list (string * Q))
  : io line unit :=
  print (Text "AVERAGE TIMINGS PER PHOTO:") ;;
  print (Rule "-" 70) ;;
  print (Columns ["Stage"; "Time (ms)"; "% of Total"]) ;;
  print (Rule "-" 70) ;;
  for_each stages (stage_row avg_total) ;;
  print (TotalRow avg_total) ;;
  print Blank.

(** Line 118-121: [sorted([p[field]/1_000_000 for p in photos])] *)
Definition sorted_ms (photos : list PhotoRecord) (field : PhotoRecord -> Z)
  : list Q :=
  py_sorted Qle_bool (fun x : Q => x) false
    (map (fun p => ms (field p)) photos).

(** Lines 114-129: the distribution statistics. *)
Definition print_distribution (photos : list PhotoRecord) : io line unit :=
  print (Text "DISTRIBUTION STATS:") ;;
  print (Rule "-" 70) ;;
  (* Get sorted values for percentiles *)
  let decode_times := sorted_ms photos ImageDecodeTime in
  let thumb_times := sorted_ms photos ThumbnailTime in
  let color_times := sorted_ms photos ColorTime in
  let total_times := sorted_ms photos TotalTime in
  print (Columns ["Stage"; "Min"; "Median"; "P95"; "Max"]) ;;
  print (Rule "-" 70) ;;
  dist_row "Image Decode" decode_times ;;
  dist_row "Thumbnails" thumb_times ;;
  dist_row "Color Extract" color_times ;;
  dist_row "TOTAL" total_times ;;
  print Blank.

(** Lines 131-144: the variability table. *)
Definition print_variability (photos : list PhotoRecord) : io line unit :=
  print (Text "VARIABILITY (Coefficient of Variation %):") ;;
  print (Rule "-" 70) ;;
  for_each (variability_ranking photos)
    (fun '(name, cv) => print (CvRow name cv)).

(** [analyze_photos(photos, label)] *)
Definition analyze_photos (photos : list PhotoRecord) (label : string)
  : io line unit :=
  match photos with
  | [] => print (Text "No photos found matching pattern!")
  | _ =>
    print (Title (upper label) (length photos)) ;;
    print (Rule "=" 70) ;;
    print Blank ;;
    (* Calculate totals *)
    let total_time := sum_Z (map TotalTime photos) in
    let hash_time := sum_Z (map HashTime photos) in
    let metadata_time := sum_Z (map MetadataTime photos) in
    let decode_time := sum_Z (map ImageDecodeTime photos) in
    let thumbnail_time := sum_Z (map ThumbnailTime photos) in
    let color_time := sum_Z (map ColorTime photos) in
    let phash_time := sum_Z (map PerceptualHashTime photos) in
    let inference_time := sum_Z (map InferenceTime photos) in
    let db_time := sum_Z (map DatabaseTime photos) in
    let total_bytes := sum_Z (map FileSize photos) in
    (* Calculate averages (convert nanoseconds to milliseconds) *)
    avg_total ← lift (average_ms photos total_time);
    avg_hash ← lift (average_ms photos hash_time);
    avg_metadata ← lift (average_ms photos metadata_time);
    avg_decode ← lift (average_ms photos decode_time);
    avg_thumbnail ← lift (average_ms photos thumbnail_time);
    avg_color ← lift (average_ms photos color_time);
    avg_phash ← lift (average_ms photos phash_time);
    avg_inference ← lift (average_ms photos inference_time);
    avg_db ← lift (average_ms photos db_time);
    print_counts photos total_bytes total_time ;;
    print Blank ;;
    print_timings avg_total
      [ ("Hash", avg_hash);
        ("Metadata", avg_metadata);
        ("Image Decode", avg_decode);
        ("Thumbnails", avg_thumbnail);
        ("Color Extract", avg_color);
        ("Perceptual Hash", avg_phash);
        ("Inference", avg_inference);
        ("Database", avg_db) ] ;;
    print_distribution photos ;;
    print_variability photos
  end.

(** ** Command line of [analyze_filetype.py] *)

(** [sys.argv[1:]] as [argparse] classifies it: a plain word fills the next
    positional argument, [--pattern] and [-p] are the store-true option. *)
Inductive cli_arg : Type :=
  | Word (s : string)
  | PatternFlag.

(** [argparse.Namespace]: attribute name to value. *)
Abbreviation Namespace := (gmap string pyval).

(** The three [add_argument] calls, as (dest, default).  The option
    [--pattern] takes its dest from its long name: the same attribute
    [pattern] that the second positional argument writes. *)
Definition positional_dests : list string := ["perfstats_file"; "pattern"].
Definition flag_dest : string := "pattern".
Definition action_defaults : list (string * pyval) :=
  [("perfstats_file", VNone); ("pattern", VNone); (flag_dest, VBool false)].

(** Defaults go in first, in the order of the actions, each only when the
    attribute is not there yet. *)
Definition set_defaults (ns : Namespace) : Namespace :=
  foldl (fun ns '(dest, default) =>
           match ns !! dest with
           | Some _ => ns
           | None => <[dest := default]> ns
           end) ns action_defaults.

(** The arguments are consumed from left to right; each one sets the
    attribute of its action.  A missing or a surplus positional argument is
    an error, exit status 2. *)
Fixpoint consume (positionals : list string) (argv : list cli_arg)
    (ns : Namespace) : result Namespace :=
  match argv with
  | [] => match positionals with
          | [] => Ok ns
          | _ :: _ => Raise (SystemExit 2)
          end
  | PatternFlag :: argv' =>
      consume positionals argv' (<[flag_dest := VBool true]> ns)
  | Word w :: argv' =>
      match positionals with
      | [] => Raise (SystemExit 2)
      | dest :: positionals' =>
          consume positionals' argv' (<[dest := VStr w]> ns)
      end
  end.

(** [parser.parse_args()] *)
Definition parse_args (argv : list cli_arg) : result Namespace :=
  consume positional_dests argv (set_defaults ∅).

(** [args.name] *)
Definition getattr (ns : Namespace) (name : string) : result pyval :=
  match ns !! name with
  | Some v => Ok v
  | None => Raise AttributeError
  end.

(** [load_perfstats(filename)] against the files that exist. *)
Definition load_perfstats (files : gmap string Dataset) (filename : pyval)
  : result Dataset :=
  match filename with
  | VStr name => match files !! name with
                 | Some data => Ok data
                 | None => Raise (FileNotFoundError name)
                 end
  | _ => Raise TypeError
  end.

(** Lines 168-171 of [main]: the records handed to the analysis. *)
Definition main_selection (files : gmap string Dataset) (argv : list cli_arg)
  : result (list PhotoRecord * pyval) :=
  args ← parse_args argv;
  file ← getattr args "perfstats_file";
  data ← load_perfstats files file;
  pattern ← getattr args "pattern";
  use_pattern ← getattr args "pattern";
  photos ← filter_photos (detailed data) pattern use_pattern;
  Ok (photos, pattern).

(** [main()] of [analyze_filetype.py] *)
Definition main (files : gmap string Dataset) (argv : list cli_arg)
  : io line unit :=
  lift (main_selection files argv) ≫= fun '(photos, pattern) =>
  let label := if truthy pattern then (py_str pattern ++ " files")%string
               else (py_str pattern ++ " pattern")%string in
  analyze_photos photos label.

(** ** Comparator: [compare_datasets.py] *)

(** One printed line of the comparison report. *)
Inductive cline : Type :=
  | CText (s : string)
  | CRule (c : string) (width : nat)
  | CBlank
  | SizeLine (small large : Q)
  | DataLine (small_mb large_mb : Q)
  | ThroughputCmp (small large : Q)
  | CColumns (names : list string)
  | PctRow (name : string) (small_pct large_pct delta : Q)
  | AbsRow (name : string) (small_ms large_ms delta pct_change : Q)
  | TotalCmp (small_total large_total delta pct_change : Q).

(** [d[key]] on a JSON object *)
Definition py_lookup (d : gmap string Q) (key : string) : result Q :=
  match d !! key with
  | Some v => Ok v
  | None => Raise (KeyError key)
  end.

(** Lines 35-44: display name and summary key of every stage. *)
Definition stages : list (string * string) :=
  [ ("Hash", "AvgHashMs");
    ("Metadata", "AvgMetadataMs");
    ("Image Decode", "AvgImageDecodeMs");
    ("Thumbnails", "AvgThumbnailMs");
    ("Color Extract", "AvgColorMs");
    ("Perceptual Hash", "AvgPerceptualHashMs");
    ("Inference", "AvgInferenceMs");
    ("Database", "AvgDatabaseMs") ].

(** Lines 48-52: one row of the percentage breakdown. *)
Definition pct_row (small_summary large_summary : gmap string Q)
    (stage : string * string) : io cline unit :=
  let '(name, key) := stage in
  small_pct ← lift (v ← py_lookup small_summary key;
                    t ← py_lookup small_summary "AvgTotalMs";
                    q ← py_div v t;
                    Ok (q * 100)%Q);
  large_pct ← lift (v ← py_lookup large_summary key;
                    t ← py_lookup large_summary "AvgTotalMs";
                    q ← py_div v t;
                    Ok (q * 100)%Q);
  let delta := (large_pct - small_pct)%Q in
  print (PctRow name small_pct large_pct delta).

(** Lines 59-67: one row of the absolute timings. *)
Definition abs_row (small_summary large_summary : gmap string Q)
    (stage : string * string) : io cline unit :=
  let '(name, key) := stage in
  small_ms ← lift (py_lookup small_summary key);
  large_ms ← lift (py_lookup large_summary key);
  let delta := (large_ms - small_ms)%Q in
  pct_change ← (if negb (Qle_bool small_ms 0)
                then lift (q ← py_div large_ms small_ms;
                           Ok ((q - 1) * 100)%Q)
                else mret 0%Q);
  print (AbsRow name small_ms large_ms delta pct_change).

(** Lines 70-74: the total per photo. *)
Definition total_row (small_summary large_summary : gmap string Q)
  : io cline unit :=
  small_total ← lift (py_lookup small_summary "AvgTotalMs");
  large_total ← lift (py_lookup large_summary "AvgTotalMs");
  let delta := (large_total - small_total)%Q in
  pct_change ← lift (q ← py_div large_total small_total;
                     Ok ((q - 1) * 100)%Q);
  print (TotalCmp small_total large_total delta pct_change).

(** [compare_summaries(small, large)] *)
Definition compare_summaries (small large : Dataset) : io cline unit :=
  let small_summary := summary small in
  let large_summary := summary large in
  print (CText "PERFORMANCE COMPARISON: Small vs Large Dataset") ;;
  print (CRule "=" 70) ;;
  print CBlank ;;
  sp ← lift (py_lookup small_summary "ProcessedPhotos");
  lp ← lift (py_lookup large_summary "ProcessedPhotos");
  print (SizeLine sp lp) ;;
  sb ← lift (py_lookup small_summary "TotalBytes");
  lb ← lift (py_lookup large_summary "TotalBytes");
  print (DataLine (sb / 1024 / 1024) (lb / 1024 / 1024))%Q ;;
  st ← lift (py_lookup small_summary "AvgThroughputMBps");
  lt ← lift (py_lookup large_summary "AvgThroughputMBps");
  print (ThroughputCmp st lt) ;;
  print CBlank ;;
  print (CText "PIPELINE STAGE BREAKDOWN (% of total time):") ;;
  print (CRule "-" 70) ;;
  print (CColumns ["Stage"; "Small %"; "Large %"; "Δ"]) ;;
  print (CRule "-" 70) ;;
  for_each stages (pct_row small_summary large_summary) ;;
  print CBlank ;;
  print (CText "ABSOLUTE TIMINGS (milliseconds per photo):") ;;
  print (CRule "-" 70) ;;
  print (CColumns ["Stage"; "Small"; "Large"; "Δ"; "% Change"]) ;;
  print (CRule "-" 70) ;;
  for_each stages (abs_row small_summary large_summary) ;;
  print CBlank ;;
  total_row small_summary large_summary.

(** [main()] of [compare_datasets.py]; [argv] is all of [sys.argv]. *)
Definition compare_main (files : gmap string Dataset) (argv : list string)
  : io cline unit :=
  match argv with
  | [_; small_file; large_file] =>
      small ← lift (load_perfstats files (VStr small_file));
      large ← lift (load_perfstats files (VStr large_file));
      compare_summaries small large
  | _ =>
      print (CText "Usage: python3 compare_datasets.py perfstats_small.json perfstats_large.json") ;;
      lift (Raise (SystemExit 1))
  end.

(** ** Reference notions used to state the properties *)

(** [selects P l kept]: [kept] is [l] with exactly the elements that satisfy
    [P] left in, in their order and multiplicity. *)
Inductive selects {A} (P : A -> Prop) : list A -> list A -> Prop :=
  | selects_nil : selects P [] []
  | selects_keep x l kept :
      P x -> selects P l kept -> selects P (x :: l) (x :: kept)
  | selects_skip x l kept :
      ~ P x -> selects P l kept -> selects P (x :: l) kept.

(** Nearest rank: [floor(n * p)] clamped to [[0, n-1]]. *)
Definition nearest_rank (n : nat) (p : Q) : nat :=
  Z.to_nat
    (Z.max 0 (Z.min (Qfloor (inject_Z (Z.of_nat n) * p)) (Z.of_nat n - 1))).

(** The same rank from the product rounded to the nearest double. *)
Definition rounded_rank (n : nat) (p : Q) : nat :=
  Z.to_nat
    (Z.max 0 (Z.min (Qfloor (round_double (inject_Z (Z.of_nat n) * p)))
                    (Z.of_nat n - 1))).

(** An integer that a double holds exactly: every one up to 2^53 in
    magnitude.  Beyond, neighbouring integers convert to the same double. *)
Definition exact_double (v : Z) : Prop := Z.abs v <= 2 ^ 53.

(** The values of a 64-bit integer. *)
Definition int64 (v : Z) : Prop := - 2 ^ 63 <= v < 2 ^ 63.

(** A record with 64-bit sizes and times. *)
Definition int64_fields (p : PhotoRecord) : Prop :=
  Forall int64
    [FileSize p; HashTime p; MetadataTime p; ImageDecodeTime p;
     ThumbnailTime p; ColorTime p; PerceptualHashTime p; InferenceTime p;
     DatabaseTime p; TotalTime p].

(** Records as a 64-bit machine holds them: fewer than 2^63 of them, with
    64-bit fields.  Their sums stay below 2^126, and every quotient of the
    analysis is within the range of a double. *)
Definition machine_sized (photos : list PhotoRecord) : Prop :=
  Z.of_nat (length photos) < 2 ^ 63 /\ Forall int64_fields photos.

(** Mean, population variance (divisor [n]) and population standard
    deviation of integer samples, over the reals. *)
Definition sum_R (l : list R) : R := fold_right Rplus 0%R l.

Definition mean_R (values : list Z) : R :=
  (sum_R (map IZR values) / INR (length values))%R.

Definition population_variance (values : list Z) : R :=
  (sum_R (map (fun v => (IZR v - mean_R values) ^ 2) values)
   / INR (length values))%R.

Definition population_std_dev (values : list Z) : R :=
  sqrt (population_variance values).

(** The fixed schema of a summary: the keys [compare_summaries] reads. *)
Definition summary_keys : list string :=
  ["ProcessedPhotos"; "TotalBytes"; "AvgThroughputMBps"; "AvgTotalMs"]
  ++ map snd stages.

Definition has_schema (s : gmap string Q) : Prop :=
  Forall (fun key => is_Some (s !! key)) summary_keys.

(** The deltas a comparison report shows, per stage. *)
Definition pct_deltas (out : list cline) : list (string * Q) :=
  omap (fun l => match l with
                 | PctRow name _ _ delta => Some (name, delta)
                 | _ => None
                 end) out.

Definition abs_deltas (out : list cline) : list (string * Q) :=
  omap (fun l => match l with
                 | AbsRow name _ _ delta _ => Some (name, delta)
                 | _ => None
                 end) out.

(** Same stage, opposite value. *)
Definition negated (x y : string * Q) : Prop :=
  fst x = fst y /\ (snd x == - snd y)%Q.

(** The rows of a report's distribution table. *)
Definition dist_rows (out : list line) : list (string * (Q * Q * Q * Q)) :=
  omap (fun l => match l with
                 | DistRow name lo median p95 hi =>
                     Some (name, (lo, median, p95, hi))
                 | _ => None
                 end) out.

(** The rows of a report's variability table. *)
Definition cv_rows (out : list line) : list (string * R) :=
  omap (fun l => match l with
                 | CvRow name cv => Some (name, cv)
                 | _ => None
                 end) out.

(** The four statistics of a distribution row are in order, and the outer
    two are the ends of the sorted values. *)
Definition ordered_stats (times : list Q) (stats : Q * Q * Q * Q) : Prop :=
  let '(lo, median, p95, hi) := stats in
  head times = Some lo /\ last times = Some hi
  /\ (lo <= median)%Q /\ (median <= p95)%Q /\ (p95 <= hi)%Q.

(** A row of the distribution table reads min <= median <= p95 <= max. *)
Definition in_order (row : string * (Q * Q * Q * Q)) : Prop :=
  let '(_, (lo, median, p95, hi)) := row in
  (lo <= median)%Q /\ (median <= p95)%Q /\ (p95 <= hi)%Q.

Definition Req_bool (a b : R) : bool :=
  if Req_dec_T a b then true else false.

(** The value of a summary field that is there. *)
Definition summary_get (s : gmap string Q) (key : string) : Q :=
  default 0%Q (s !! key).

(** The relative change as the comparator defines it per stage: 0 from a
    baseline that is not positive. *)
Definition rel_change (base other : Q) : Q :=
  if negb (Qle_bool base 0) then ((other / base - 1) * 100)%Q else 0%Q.

(** The rows of a report's average-timings table. *)
Definition stage_rows (out : list line) : list (string * Q * Q) :=
  omap (fun l => match l with
                 | StageRow name time_ms pct => Some (name, time_ms, pct)
                 | _ => None
                 end) out.

(** Lines 64-71 with 94-103: the record field behind every row of the
    timings table. *)
Definition stage_fields : list (string * (PhotoRecord -> Z)) :=
  [ ("Hash", HashTime);
    ("Metadata", MetadataTime);
    ("Image Decode", ImageDecodeTime);
    ("Thumbnails", ThumbnailTime);
    ("Color Extract", ColorTime);
    ("Perceptual Hash", PerceptualHashTime);
    ("Inference", InferenceTime);
    ("Database", DatabaseTime) ].

(** Lines 118-121: the fields of the four rows of the distribution table. *)
Definition dist_fields : list (PhotoRecord -> Z) :=
  [ImageDecodeTime; ThumbnailTime; ColorTime; TotalTime].

(** The plain words of a command line, in their order. *)
Definition words (argv : list cli_arg) : list string :=
  omap (fun a => match a with
                 | Word w => Some w
                 | PatternFlag => None
                 end) argv.

(** ** Sample data *)

(** One photo that took no measurable time. *)
Definition instant_photo : PhotoRecord :=
  {| FilePath := "photo.DNG"; FileSize := 1048576;
     HashTime := 0; MetadataTime := 0; ImageDecodeTime := 0;
     ThumbnailTime := 0; ColorTime := 0; PerceptualHashTime := 0;
     InferenceTime := 0; DatabaseTime := 0; TotalTime := 0 |}.

(** A photo with every stage timed. *)
Definition timed_photo (path : string) (decode total : Z) : PhotoRecord :=
  {| FilePath := path; FileSize := 2097152;
     HashTime := 1000000; MetadataTime := 2000000; ImageDecodeTime := decode;
     ThumbnailTime := 3000000; ColorTime := 4000000;
     PerceptualHashTime := 5000000; InferenceTime := 6000000;
     DatabaseTime := 7000000; TotalTime := total |}.

Definition sample_photos : list PhotoRecord :=
  [timed_photo "a.dng" 30000000 90000000;
   timed_photo "b.DNG" 10000000 60000000].

(** The ten values 1..10 of the worked example. *)
Definition one_to_ten : list Q := map inject_Z [1; 2; 3; 4; 5; 6; 7; 8; 9; 10].

(** Two summaries with the fixed schema, and one of a run that did nothing. *)
Definition make_summary (photos bytes throughput total hash : Q)
  : gmap string Q :=
  list_to_map
    [("ProcessedPhotos", photos); ("TotalBytes", bytes);
     ("AvgThroughputMBps", throughput); ("AvgTotalMs", total);
     ("AvgHashMs", hash); ("AvgMetadataMs", 0%Q); ("AvgImageDecodeMs", 40%Q);
     ("AvgThumbnailMs", 20%Q); ("AvgColorMs", 10%Q);
     ("AvgPerceptualHashMs", 5%Q); ("AvgInferenceMs", 0%Q);
     ("AvgDatabaseMs", 2%Q)].

Definition small_run : Dataset :=
  {| summary := make_summary 10 10485760 5 100 10; detailed := [] |}.

Definition large_run : Dataset :=
  {| summary := make_summary 1000 1048576000 4 150 20; detailed := [] |}.

Definition idle_run : Dataset :=
  {| summary := list_to_map
       [("ProcessedPhotos", 0%Q); ("TotalBytes", 0%Q);
        ("AvgThroughputMBps", 0%Q); ("AvgTotalMs", 0%Q);
        ("AvgHashMs", 0%Q); ("AvgMetadataMs", 0%Q); ("AvgImageDecodeMs", 0%Q);
        ("AvgThumbnailMs", 0%Q); ("AvgColorMs", 0%Q);
        ("AvgPerceptualHashMs", 0%Q); ("AvgInferenceMs", 0%Q);
        ("AvgDatabaseMs", 0%Q)];
     detailed := [] |}.

(** A perfstats file with the two sample photos, "a.dng" and "b.DNG". *)
Definition sample_files : gmap string Dataset :=
  {[ "perfstats.json" := {| summary := ∅; detailed := sample_photos |} ]}.

(** * Properties *)

(** ** The monads *)

Section IoFacts.
Context {L : Type}.
Implicit Types (l : L).

Lemma bind_print {A} l (k : io L A) :
  (print l ;; k) = (l :: output k, outcome k).
Proof. reflexivity. Qed.

Lemma bind_ok {A B} (m : io L A) (f : A -> io L B) o a :
  m = (o, Ok a) -> m ≫= f = (o ++ output (f a), outcome (f a)).
Proof. intros ->. reflexivity. Qed.

Lemma bind_lift_ok {A B} (a : A) (f : A -> io L B) :
  lift (Ok a) ≫= f = f a.
Proof.
  unfold lift. rewrite (bind_ok _ _ [] a eq_refl).
  now destruct (f a).
Qed.

Lemma bind_lift_raise {A B} e (f : A -> io L B) :
  lift (Raise e) ≫= f = ([], Raise e).
Proof. reflexivity. Qed.

Lemma bind_ret {A B} (a : A) (f : A -> io L B) : mret a ≫= f = f a.
Proof. apply bind_lift_ok. Qed.

Lemma for_each_rows {A} (body : A -> io L unit) (g : A -> L) (xs : list A) :
  Forall (fun x => body x = ([g x], Ok tt)) xs ->
  for_each xs body = (map g xs, Ok tt).
Proof.
  induction 1 as [|x xs Hx _ IH]; [reflexivity|].
  cbn [for_each]. rewrite (bind_ok _ _ _ _ Hx), IH. reflexivity.
Qed.
End IoFacts.

Lemma py_div_ok (a b : Q) : ~ (b == 0)%Q -> py_div a b = Ok (a / b)%Q.
Proof.
  intros Hb. unfold py_div.
  destruct (Qeq_bool b 0) eqn:E; [|reflexivity].
  now apply Qeq_bool_eq in E.
Qed.

Lemma py_div_zero (a b : Q) : (b == 0)%Q -> py_div a b = Raise ZeroDivisionError.
Proof.
  intros Hb. unfold py_div. now rewrite (Qeq_eq_bool _ _ Hb).
Qed.

Lemma len_nonzero {A} (l : list A) : l <> [] -> ~ (len l == 0)%Q.
Proof.
  intros Hl. unfold len, Qeq. destruct l; [easy|]. cbn. lia.
Qed.

(** ** Selector *)

Lemma append_cons c (a b : string) :
  (String c a ++ b)%string = String c (a ++ b)%string.
Proof. reflexivity. Qed.

Lemma startswith_spec s pre :
  startswith s pre = true <-> exists back, s = (pre ++ back)%string.
Proof.
  revert s. induction pre as [|a pre IH]; intros s; simpl.
  - split; [intros _; now exists s | reflexivity].
  - destruct s as [|b s].
    + split; [discriminate | intros [back H]; discriminate].
    + rewrite andb_true_iff, Ascii.eqb_eq, IH. split.
      * intros [-> [back ->]]. now exists back.
      * intros [back H]. injection H as -> ->. split; [reflexivity|now exists back].
Qed.

Lemma string_drop_app front s :
  string_drop (String.length front) (front ++ s) = s.
Proof. induction front; simpl; auto. Qed.

Lemma string_length_app (a b : string) :
  String.length (a ++ b) = (String.length a + String.length b)%nat.
Proof. induction a; simpl; auto. Qed.

Lemma string_drop_split n s :
  (n <= String.length s)%nat ->
  exists front, s = (front ++ string_drop n s)%string /\ String.length front = n.
Proof.
  revert s. induction n as [|n IH]; intros s Hn.
  - exists EmptyString. split; reflexivity.
  - destruct s as [|c s]; simpl in *; [lia|].
    destruct (IH s) as [front [H1 H2]]; [lia|].
    exists (String c front). rewrite append_cons. cbn [String.length].
    split; [now rewrite <- H1 | now rewrite H2].
Qed.

Lemma endswith_spec s suf :
  endswith s suf = true <-> exists front, s = (front ++ suf)%string.
Proof.
  unfold endswith. rewrite andb_true_iff, Nat.leb_le, String.eqb_eq. split.
  - intros [Hlen Heq].
    destruct (string_drop_split (String.length s - String.length suf) s)
      as [front [H _]]; [lia|].
    exists front. now rewrite Heq in H.
  - intros [front ->]. rewrite string_length_app. split; [lia|].
    replace (String.length front + String.length suf - String.length suf)%nat
      with (String.length front) by lia.
    apply string_drop_app.
Qed.

Lemma contains_spec s sub :
  contains s sub = true <-> has_substring s sub.
Proof.
  unfold has_substring. induction s as [|c s IH].
  - simpl. rewrite orb_false_r, startswith_spec. split.
    + intros [back H]. now exists EmptyString, back.
    + intros [front [back H]]. destruct front; simpl in H.
      * now exists back.
      * discriminate.
  - cbn [contains]. rewrite orb_true_iff, IH, startswith_spec. split.
    + intros [[back H] | [front [back H]]].
      * now exists EmptyString, back.
      * exists (String c front), back. simpl. now rewrite H.
    + intros [front [back H]]. destruct front as [|c' front]; simpl in H.
      * left. now exists back.
      * right. injection H as _ H. now exists front, back.
Qed.

Lemma startswith_dot pattern :
  (if startswith pattern "." then pattern else ("." ++ pattern)%string)
  = dot_normalized pattern.
Proof.
  destruct pattern as [|c p]; [reflexivity|].
  destruct c as [[] [] [] [] [] [] [] []]; reflexivity.
Qed.

Lemma comprehension_selects {A} (f : A -> bool) (P : A -> Prop) (l : list A) :
  (forall x, f x = true <-> P x) ->
  exists kept, comprehension (fun p => Ok (f p)) l = Ok kept /\ selects P l kept.
Proof.
  intros Hf. induction l as [|x l [kept [IH Hsel]]].
  - exists []. split; [reflexivity | constructor].
  - cbn [comprehension mbind result_bind]. rewrite IH.
    destruct (f x) eqn:E.
    + exists (x :: kept). split; [reflexivity|].
      constructor; [now apply Hf | exact Hsel].
    + exists kept. split; [reflexivity|].
      apply selects_skip; [|exact Hsel]. rewrite <- Hf. congruence.
Qed.

(** [selects] pins the kept list down. *)
Lemma selects_unique {A} (P : A -> Prop) (l k1 k2 : list A) :
  selects P l k1 -> selects P l k2 -> k1 = k2.
Proof.
  intros H1. revert k2.
  induction H1 as [|x l k1 Hx _ IH|x l k1 Hx _ IH]; intros k2 H2;
    inversion H2; subst; try contradiction; auto.
  f_equal. now apply IH.
Qed.

Lemma selects_In {A} (P : A -> Prop) (l kept : list A) :
  selects P l kept -> forall x, In x kept <-> In x l /\ P x.
Proof.
  induction 1 as [|y l kept Hy _ IH|y l kept Hy _ IH]; intros x; simpl.
  - tauto.
  - rewrite IH. split; [intros [->|[? ?]]; auto | tauto].
  - rewrite IH. split; [tauto | intros [[->|?] ?]; [contradiction | tauto]].
Qed.

Lemma filter_photos_extension_mode (recs : list PhotoRecord) (pattern : string) :
  exists kept,
    filter_photos recs (VStr pattern) (VBool false) = Ok kept
    /\ selects (fun r => ends_with_ci (FilePath r) pattern) recs kept.
Proof.
  unfold filter_photos. cbn [truthy py_startswith mbind result_bind py_str].
  rewrite startswith_dot.
  apply comprehension_selects. intros r.
  unfold ends_with_ci. now rewrite endswith_spec.
Qed.

Lemma filter_photos_substring_mode (recs : list PhotoRecord) (pattern : string) :
  exists kept,
    filter_photos recs (VStr pattern) (VBool true) = Ok kept
    /\ selects (fun r => has_substring (FilePath r) pattern) recs kept.
Proof.
  unfold filter_photos. cbn [truthy py_in].
  apply (comprehension_selects (fun r => contains (FilePath r) pattern)).
  intros r. apply contains_spec.
Qed.

(** C7: in extension mode the selector keeps exactly the records whose path
    ends, in upper case, with the upper-cased dot-normalized pattern; in
    substring mode exactly those whose path contains the pattern literally,
    case-sensitively.  "photo.DNG" is kept for "dng" and for ".DNG" alike,
    and the substring test tells "DNG" from "dng". *)
Theorem filter_photos_keeps_exactly :
  (forall (recs : list PhotoRecord) (pattern : string),
      (exists kept,
          filter_photos recs (VStr pattern) (VBool false) = Ok kept
          /\ selects (fun r => ends_with_ci (FilePath r) pattern) recs kept)
      /\ (exists kept,
          filter_photos recs (VStr pattern) (VBool true) = Ok kept
          /\ selects (fun r => has_substring (FilePath r) pattern) recs kept))
  /\ ends_with_ci "photo.DNG" "dng"
  /\ ends_with_ci "photo.DNG" ".DNG"
  /\ has_substring "photo.DNG" "DNG"
  /\ ~ has_substring "photo.DNG" "dng".
Proof.
  split; [intros recs pattern; split|].
  - apply filter_photos_extension_mode.
  - apply filter_photos_substring_mode.
  - repeat split.
    + now apply endswith_spec.
    + now apply endswith_spec.
    + now apply contains_spec.
    + rewrite <- contains_spec. discriminate.
Qed.

(** ** Stage aggregator: empty input and throughput *)

(** C10: on an empty record list the analysis prints the no-match message
    and returns normally; no statistic is computed and nothing is divided. *)
Theorem analyze_photos_empty (label : string) :
  analyze_photos [] label
  = ([Text "No photos found matching pattern!"], Ok tt).
Proof. reflexivity. Qed.

Lemma average_ms_ok (photos : list PhotoRecord) (t : Z) :
  photos <> [] ->
  average_ms photos t = Ok (inject_Z t / len photos / 1000000)%Q.
Proof.
  intros H. unfold average_ms. now rewrite (py_div_ok _ _ (len_nonzero _ H)).
Qed.

(** With a total time of 0 the counts block stops at the throughput. *)
Lemma print_counts_zero_time (photos : list PhotoRecord) (total_bytes : Z) :
  photos <> [] ->
  print_counts photos total_bytes 0
  = ([CountLine (length photos);
      TotalSizeLine (inject_Z total_bytes / 1024 / 1024)%Q;
      AvgFileSizeLine (inject_Z total_bytes / len photos / 1024 / 1024)%Q],
     Raise ZeroDivisionError).
Proof.
  intros Hne. unfold print_counts.
  rewrite (py_div_ok _ _ (len_nonzero _ Hne)).
  rewrite (py_div_zero _ (inject_Z 0 / 1000000000)) by reflexivity.
  reflexivity.
Qed.

Lemma print_counts_ok (photos : list PhotoRecord) (total_bytes total_time : Z) :
  photos <> [] -> total_time <> 0 ->
  print_counts photos total_bytes total_time
  = ([CountLine (length photos);
      TotalSizeLine (inject_Z total_bytes / 1024 / 1024)%Q;
      AvgFileSizeLine (inject_Z total_bytes / len photos / 1024 / 1024)%Q;
      ThroughputLine ((inject_Z total_bytes / 1024 / 1024)
                      / (inject_Z total_time / 1000000000))%Q],
     Ok tt).
Proof.
  intros Hne Ht. unfold print_counts.
  rewrite (py_div_ok _ _ (len_nonzero _ Hne)).
  rewrite (py_div_ok _ (inject_Z total_time / 1000000000)).
  - reflexivity.
  - intros H. apply Ht. unfold Qeq in H. cbn in H. lia.
Qed.

(** What a non-empty analysis has printed and computed when it reaches the
    counts block. *)
Lemma analyze_photos_unfold (photos : list PhotoRecord) (label : string) :
  photos <> [] ->
  analyze_photos photos label
  = (print (Title (upper label) (length photos)) ;;
     print (Rule "=" 70) ;;
     print Blank ;;
     print_counts photos (sum_Z (map FileSize photos))
                         (sum_Z (map TotalTime photos)) ;;
     print Blank ;;
     let avg := fun t : Z => (inject_Z t / len photos / 1000000)%Q in
     print_timings (avg (sum_Z (map TotalTime photos)))
       [ ("Hash", avg (sum_Z (map HashTime photos)));
         ("Metadata", avg (sum_Z (map MetadataTime photos)));
         ("Image Decode", avg (sum_Z (map ImageDecodeTime photos)));
         ("Thumbnails", avg (sum_Z (map ThumbnailTime photos)));
         ("Color Extract", avg (sum_Z (map ColorTime photos)));
         ("Perceptual Hash", avg (sum_Z (map PerceptualHashTime photos)));
         ("Inference", avg (sum_Z (map InferenceTime photos)));
         ("Database", avg (sum_Z (map DatabaseTime photos))) ] ;;
     print_distribution photos ;;
     print_variability photos).
Proof.
  intros Hne. unfold analyze_photos.
  destruct photos as [|p l] eqn:E; [easy|]. rewrite <- E in *. clear E.
  cbv zeta.
  rewrite !(average_ms_ok _ _ Hne).
  reflexivity.
Qed.

Lemma analyze_photos_throughput (photos : list PhotoRecord) (label : string) :
  photos <> [] ->
  sum_Z (map TotalTime photos) = 0 ->
  analyze_photos photos label
  = ([Title (upper label) (length photos); Rule "=" 70; Blank;
      CountLine (length photos);
      TotalSizeLine (inject_Z (sum_Z (map FileSize photos)) / 1024 / 1024)%Q;
      AvgFileSizeLine
        (inject_Z (sum_Z (map FileSize photos)) / len photos / 1024 / 1024)%Q],
     Raise ZeroDivisionError).
Proof.
  intros Hne Hzero. rewrite (analyze_photos_unfold _ _ Hne).
  rewrite Hzero, (print_counts_zero_time _ _ Hne). reflexivity.
Qed.

(** C1: for a non-empty record list whose [TotalTime] values sum to 0 the
    analysis does not report a throughput of 0 and does not skip the line:
    it stops with [ZeroDivisionError] after the average file size. *)
Theorem analyze_photos_zero_total_time_raises
    (photos : list PhotoRecord) (label : string) :
  photos <> [] ->
  sum_Z (map TotalTime photos) = 0 ->
  outcome (analyze_photos photos label) = Raise ZeroDivisionError
  /\ Forall (fun l => match l with ThroughputLine _ => False | _ => True end)
       (output (analyze_photos photos label)).
Proof.
  intros Hne Hzero. rewrite (analyze_photos_throughput _ _ Hne Hzero).
  split; [reflexivity|]. cbn [output fst]. repeat constructor.
Qed.

Lemma analyze_photos_zero_total_time_witness :
  outcome (analyze_photos [instant_photo] ".DNG files")
  = Raise ZeroDivisionError
  /\ Forall (fun l => match l with ThroughputLine _ => False | _ => True end)
       (output (analyze_photos [instant_photo] ".DNG files")).
Proof.
  apply analyze_photos_zero_total_time_raises; [discriminate | reflexivity].
Defined.

(** ** Sorting *)

Section Sorting.
Context {A : Type} (before : A -> A -> bool) (R : A -> A -> Prop).

Lemma insert_sorted_perm (x : A) (l : list A) :
  Permutation (insert_sorted before x l) (x :: l).
Proof.
  induction l as [|y l IH]; cbn [insert_sorted]; [reflexivity|].
  destruct (before x y); [reflexivity|].
  rewrite IH. apply perm_swap.
Qed.

Hypothesis before_sound : forall x y, before x y = true -> R x y.
Hypothesis before_total : forall x y, before x y = false -> R y x.
Hypothesis R_trans : forall x y z, R x y -> R y z -> R x z.

Lemma insert_sorted_sorted (x : A) (l : list A) :
  StronglySorted R l -> StronglySorted R (insert_sorted before x l).
Proof.
  induction 1 as [|y l Hl IH Hy]; cbn [insert_sorted].
  - repeat constructor.
  - destruct (before x y) eqn:E.
    + constructor; [now constructor|].
      constructor; [now apply before_sound|].
      eapply Forall_impl; [exact Hy|].
      intros z Hz. eapply R_trans; [|exact Hz]. now apply before_sound.
    + constructor; [exact IH|].
      rewrite (insert_sorted_perm x l).
      constructor; [now apply before_total | exact Hy].
Qed.
End Sorting.

Lemma py_sorted_perm {A K} (le : K -> K -> bool) (key : A -> K)
    (reverse : bool) (l : list A) :
  Permutation (py_sorted le key reverse l) l.
Proof.
  unfold py_sorted. induction l as [|x l IH]; [reflexivity|].
  cbn [foldr]. rewrite insert_sorted_perm. now constructor.
Qed.

Lemma py_sorted_length {A K} (le : K -> K -> bool) (key : A -> K)
    (reverse : bool) (l : list A) :
  length (py_sorted le key reverse l) = length l.
Proof. apply Permutation_length, py_sorted_perm. Qed.

(** Ascending on rationals, as the distribution table sorts. *)
Lemma py_sorted_Q_ascending (l : list Q) :
  StronglySorted Qle (py_sorted Qle_bool (fun x : Q => x) false l).
Proof.
  unfold py_sorted. induction l as [|x l IH]; [constructor|].
  cbn [foldr]. apply insert_sorted_sorted; [| | |exact IH].
  - intros a b. apply Qle_bool_imp_le.
  - intros a b H. destruct (Qlt_le_dec a b) as [Hlt|Hle]; [|exact Hle].
    apply Qlt_le_weak in Hlt. apply Qle_bool_iff in Hlt. congruence.
  - intros a b c. apply Qle_trans.
Qed.

(** Descending by the real-valued key, as the variability table sorts. *)
Lemma py_sorted_R_descending {A} (key : A -> R) (l : list A) :
  StronglySorted (fun a b => (key b <= key a)%R)
    (py_sorted Rle_bool key true l).
Proof.
  unfold py_sorted. induction l as [|x l IH]; [constructor|].
  cbn [foldr]. apply insert_sorted_sorted; [| | |exact IH].
  - intros a b. unfold Rle_bool. now destruct (Rle_dec (key b) (key a)).
  - intros a b. unfold Rle_bool.
    destruct (Rle_dec (key b) (key a)); [discriminate|]. intros _. lra.
  - intros a b c ? ?. lra.
Qed.

(** Stability: elements that the order may not move past one another keep
    their relative order. *)
Lemma py_sorted_stable {A K} (le : K -> K -> bool) (key : A -> K)
    (reverse : bool) (same : A -> bool) (l : list A) :
  (forall x y, same x = true -> same y = true ->
               (if reverse then le (key y) (key x) else le (key x) (key y))
               = true) ->
  List.filter same (py_sorted le key reverse l) = List.filter same l.
Proof.
  intros Hsame. unfold py_sorted.
  set (before := fun x y => if reverse then le (key y) (key x)
                            else le (key x) (key y)).
  assert (Hins : forall x l, List.filter same (insert_sorted before x l)
                             = List.filter same (x :: l)).
  { intros x l0. induction l0 as [|y l0 IH]; [reflexivity|].
    cbn [insert_sorted]. destruct (before x y) eqn:E; [reflexivity|].
    cbn [List.filter] in *. rewrite IH.
    destruct (same x) eqn:Ex, (same y) eqn:Ey; try reflexivity.
    unfold before in E. rewrite (Hsame x y Ex Ey) in E. discriminate. }
  induction l as [|x l IH]; [reflexivity|].
  cbn [foldr]. rewrite Hins. cbn [List.filter]. now rewrite IH.
Qed.

(** ** Doubles *)

Lemma round_half_even_bounds (x : Q) :
  Qfloor x <= round_half_even x <= Qfloor x + 1.
Proof.
  unfold round_half_even. cbv zeta.
  destruct (_ ?= _)%Q; [destruct (Z.even _)|..]; lia.
Qed.

Lemma round_half_even_Z (k : Z) : round_half_even (inject_Z k) = k.
Proof.
  unfold round_half_even. cbv zeta. rewrite Qfloor_Z.
  assert (H : (inject_Z k - inject_Z k ?= 1 # 2)%Q = Lt).
  { rewrite <- Qlt_alt. unfold Qlt, Qminus, Qplus, Qopp, inject_Z.
    cbn [Qnum Qden]. lia. }
  now rewrite H.
Qed.

Lemma round_half_even_mono (x y : Q) :
  (x <= y)%Q -> round_half_even x <= round_half_even y.
Proof.
  intros Hxy.
  pose proof (Qfloor_resp_le _ _ Hxy) as Hf.
  pose proof (round_half_even_bounds x) as Bx.
  pose proof (round_half_even_bounds y) as By.
  destruct (Z.eq_dec (Qfloor x) (Qfloor y)) as [E|NE]; [|lia].
  clear Bx By Hf. unfold round_half_even. cbv zeta. rewrite <- E.
  destruct (Qcompare_spec (x - inject_Z (Qfloor x)) (1 # 2)) as [Hx|Hx|Hx],
           (Qcompare_spec (y - inject_Z (Qfloor x)) (1 # 2)) as [Hy|Hy|Hy];
    try (destruct (Z.even (Qfloor x)); lia); try lia; exfalso; Lqa.lra.
Qed.

Lemma pow2_pos (e : Z) : (0 < 2 ^ e)%Q.
Proof. now apply Qpower_0_lt. Qed.

Lemma pow2_plus (a b : Z) : (2 ^ (a + b) == 2 ^ a * 2 ^ b)%Q.
Proof. now apply Qpower_plus. Qed.

Lemma pow2_Z (n : Z) : 0 <= n -> (2 ^ n == inject_Z (2 ^ n))%Q.
Proof. intros Hn. symmetry. now apply (Zpower_Qpower 2). Qed.

Lemma pow2_le (a b : Z) : a <= b -> (2 ^ a <= 2 ^ b)%Q.
Proof. intros H. now apply Qpower_le_compat_l. Qed.

Lemma pow2_lt_inv (a b : Z) : (2 ^ a < 2 ^ b)%Q -> a < b.
Proof. intros H. now apply (Qpower_lt_compat_l_inv 2). Qed.

Lemma Qmake_lt_div (a : Z) (b : positive) (A B : Z) :
  0 < B -> a * B < A * Z.pos b -> (a # b < inject_Z A / inject_Z B)%Q.
Proof.
  intros HB H. destruct B as [|B|B]; try lia.
  rewrite <- Qmake_Qdiv. unfold Qlt. cbn [Qnum Qden]. lia.
Qed.

Lemma Qmake_ge_div (a : Z) (b : positive) (A B : Z) :
  0 < B -> A * Z.pos b <= a * B -> (inject_Z A / inject_Z B <= a # b)%Q.
Proof.
  intros HB H. destruct B as [|B|B]; try lia.
  rewrite <- Qmake_Qdiv. unfold Qle. cbn [Qnum Qden]. lia.
Qed.

Lemma pow2_minus_Z (a b : Z) :
  0 <= a -> 0 <= b -> (2 ^ (a - b) == inject_Z (2 ^ a) / inject_Z (2 ^ b))%Q.
Proof.
  intros Ha Hb. rewrite Qpower_minus by discriminate.
  now rewrite !pow2_Z.
Qed.

Lemma ilog2_spec (x : Q) :
  (0 < x)%Q -> (2 ^ ilog2 x <= x)%Q /\ (x < 2 ^ (ilog2 x + 1))%Q.
Proof.
  intros Hx. destruct x as [a b].
  assert (Ha : 0 < a) by (unfold Qlt in Hx; cbn in Hx; lia).
  unfold ilog2. cbn [Qnum Qden].
  destruct (Z.log2_spec a Ha) as [A1 A2].
  destruct (Z.log2_spec (Z.pos b) eq_refl) as [B1 B2].
  pose proof (Z.log2_nonneg a) as La.
  pose proof (Z.log2_nonneg (Z.pos b)) as Lb.
  revert A1 A2 B1 B2 La Lb.
  generalize (Z.log2 a) (Z.log2 (Z.pos b)). intros la lb A1 A2 B1 B2 La Lb.
  replace (Z.succ la) with (la + 1) in A2 by lia.
  replace (Z.succ lb) with (lb + 1) in B2 by lia.
  assert (P1 : 0 < 2 ^ la) by (apply Z.pow_pos_nonneg; lia).
  assert (P2 : 0 < 2 ^ lb) by (apply Z.pow_pos_nonneg; lia).
  destruct (Qle_bool (2 ^ (la - lb)) (a # b)) eqn:E.
  - split; [now apply Qle_bool_iff|].
    replace (la - lb + 1) with ((la + 1) - lb) by lia.
    rewrite pow2_minus_Z by lia. apply Qmake_lt_div; [exact P2|]. nia.
  - split.
    + replace (la - lb - 1) with (la - (lb + 1)) by lia.
      rewrite pow2_minus_Z by lia. apply Qmake_ge_div; [lia|]. nia.
    + replace (la - lb - 1 + 1) with (la - lb) by lia.
      apply Qnot_le_lt. intros H. apply Qle_bool_iff in H. congruence.
Qed.

Lemma ilog2_mono (x y : Q) : (0 < x)%Q -> (x <= y)%Q -> ilog2 x <= ilog2 y.
Proof.
  intros Hx Hxy.
  destruct (ilog2_spec x Hx) as [X1 _].
  destruct (ilog2_spec y) as [_ Y2]; [Lqa.lra|].
  assert (ilog2 x < ilog2 y + 1); [|lia].
  apply pow2_lt_inv. Lqa.lra.
Qed.

Lemma ilog2_unique (x : Q) (e : Z) :
  (2 ^ e <= x)%Q -> (x < 2 ^ (e + 1))%Q -> ilog2 x = e.
Proof.
  intros H1 H2. pose proof (pow2_pos e) as He.
  destruct (ilog2_spec x) as [X1 X2]; [Lqa.lra|].
  assert (ilog2 x < e + 1) by (apply pow2_lt_inv; Lqa.lra).
  assert (e < ilog2 x + 1) by (apply pow2_lt_inv; Lqa.lra).
  lia.
Qed.

Lemma Qabs_pos_eq (x : Q) : (0 <= x)%Q -> Qabs x = x.
Proof.
  destruct x as [a b]. unfold Qle. cbn. intros H.
  f_equal. apply Z.abs_eq. lia.
Qed.

Lemma round_double_pos (x : Q) :
  (0 < x)%Q ->
  round_double x
  = (inject_Z (round_half_even (x / 2 ^ ulp_exponent x))
     * 2 ^ ulp_exponent x)%Q.
Proof.
  intros Hx. unfold round_double.
  destruct (Qeq_bool x 0) eqn:E; [|reflexivity].
  apply Qeq_bool_iff in E. Lqa.lra.
Qed.

Lemma round_double_0 (x : Q) : (x == 0)%Q -> round_double x = 0%Q.
Proof.
  intros Hx. unfold round_double. apply Qeq_bool_iff in Hx. now rewrite Hx.
Qed.

(** A point of the grid of [x] that is on one side of [x] is on the same
    side of the double nearest [x]. *)
Lemma round_double_le_grid (x B : Q) (m : Z) :
  (0 < x)%Q -> (x <= B)%Q -> (B == inject_Z m * 2 ^ ulp_exponent x)%Q ->
  (round_double x <= B)%Q.
Proof.
  intros Hx HB Hm. rewrite (round_double_pos x Hx), Hm.
  pose proof (pow2_pos (ulp_exponent x)) as Hu.
  apply Qmult_le_compat_r; [|Lqa.lra].
  rewrite <- Zle_Qle. rewrite <- (round_half_even_Z m) at 1.
  apply round_half_even_mono.
  apply Qle_shift_div_r; [exact Hu|]. now rewrite <- Hm.
Qed.

Lemma round_double_ge_grid (x B : Q) (m : Z) :
  (0 < x)%Q -> (B <= x)%Q -> (B == inject_Z m * 2 ^ ulp_exponent x)%Q ->
  (B <= round_double x)%Q.
Proof.
  intros Hx HB Hm. rewrite (round_double_pos x Hx), Hm.
  pose proof (pow2_pos (ulp_exponent x)) as Hu.
  apply Qmult_le_compat_r; [|Lqa.lra].
  rewrite <- Zle_Qle. rewrite <- (round_half_even_Z m) at 1.
  apply round_half_even_mono.
  apply Qle_shift_div_l; [exact Hu|]. now rewrite <- Hm.
Qed.

Lemma round_double_nonneg (x : Q) : (0 <= x)%Q -> (0 <= round_double x)%Q.
Proof.
  intros Hx. destruct (Qeq_dec x 0) as [E|E].
  - rewrite (round_double_0 x E). apply Qle_refl.
  - apply (round_double_ge_grid x 0 0); [Lqa.lra | exact Hx | ring].
Qed.

(** A number on its own grid is a double. *)
Lemma round_double_exact (x : Q) (m : Z) :
  (0 < x)%Q -> (x == inject_Z m * 2 ^ ulp_exponent x)%Q ->
  (round_double x == x)%Q.
Proof.
  intros Hx Hm. apply Qle_antisym.
  - apply (round_double_le_grid x x m); [exact Hx | apply Qle_refl | exact Hm].
  - apply (round_double_ge_grid x x m); [exact Hx | apply Qle_refl | exact Hm].
Qed.

Lemma pow2_split (e k : Z) :
  k <= e -> (2 ^ e == inject_Z (2 ^ (e - k)) * 2 ^ k)%Q.
Proof.
  intros H. rewrite <- pow2_Z by lia. rewrite <- pow2_plus.
  now replace (e - k + k) with e by lia.
Qed.

Lemma ulp_exponent_pos (x : Q) :
  (0 < x)%Q -> ulp_exponent x = Z.max (ilog2 x - 52) (-1074).
Proof.
  intros Hx. unfold ulp_exponent.
  rewrite Qabs_pos_eq; [reflexivity | Lqa.lra].
Qed.

(** Rounding to the nearest double keeps the order. *)
Lemma round_double_mono (x y : Q) :
  (0 <= x)%Q -> (x <= y)%Q -> (round_double x <= round_double y)%Q.
Proof.
  intros Hx Hxy. destruct (Qeq_dec x 0) as [E|E].
  { rewrite (round_double_0 x E). apply round_double_nonneg. Lqa.lra. }
  assert (Hx' : (0 < x)%Q) by Lqa.lra.
  assert (Hy' : (0 < y)%Q) by Lqa.lra.
  pose proof (ilog2_mono x y Hx' Hxy) as He.
  pose proof (ulp_exponent_pos x Hx') as Ux.
  pose proof (ulp_exponent_pos y Hy') as Uy.
  destruct (Z.eq_dec (ulp_exponent x) (ulp_exponent y)) as [Eu|Nu].
  - rewrite (round_double_pos x Hx'), (round_double_pos y Hy'), Eu.
    pose proof (pow2_pos (ulp_exponent y)) as Hu.
    apply Qmult_le_compat_r; [|Lqa.lra].
    rewrite <- Zle_Qle. apply round_half_even_mono.
    apply Qmult_le_compat_r; [exact Hxy|].
    apply Qlt_le_weak, Qinv_lt_0_compat, Hu.
  - destruct (ilog2_spec x Hx') as [_ X2].
    destruct (ilog2_spec y Hy') as [Y1 _].
    apply Qle_trans with (2 ^ ilog2 y)%Q.
    + apply (round_double_le_grid x _ (2 ^ (ilog2 y - ulp_exponent x)));
        [exact Hx' | | apply pow2_split; lia].
      apply Qle_trans with (2 ^ (ilog2 x + 1))%Q; [Lqa.lra|].
      apply pow2_le. lia.
    + apply (round_double_ge_grid y _ (2 ^ (ilog2 y - ulp_exponent y)));
        [exact Hy' | exact Y1 | apply pow2_split; lia].
Qed.

Lemma round_double_comp (x y : Q) :
  (0 <= x)%Q -> (x == y)%Q -> (round_double x == round_double y)%Q.
Proof.
  intros Hx Hxy. apply Qle_antisym; apply round_double_mono; Lqa.lra.
Qed.

(** The integers up to 2^53 are doubles. *)
Lemma round_double_Z (k : Z) :
  0 <= k <= 2 ^ 53 -> (round_double (inject_Z k) == inject_Z k)%Q.
Proof.
  intros Hk. destruct (Z.eq_dec k 0) as [->|Hnz]; [reflexivity|].
  assert (Hpos : (0 < inject_Z k)%Q).
  { change 0%Q with (inject_Z 0). rewrite <- Zlt_Qlt. lia. }
  destruct (ilog2_spec _ Hpos) as [L1 L2].
  assert (H53 : ilog2 (inject_Z k) < 54).
  { apply pow2_lt_inv. apply Qle_lt_trans with (inject_Z k); [exact L1|].
    rewrite pow2_Z by lia. rewrite <- Zlt_Qlt. lia. }
  pose proof (ulp_exponent_pos _ Hpos) as Hu.
  destruct (Z.eq_dec (ilog2 (inject_Z k)) 53) as [E53|N53].
  - rewrite E53 in L1, Hu. rewrite pow2_Z in L1 by lia.
    rewrite <- Zle_Qle in L1. assert (k = 2 ^ 53) by lia. subst k.
    apply (round_double_exact _ (2 ^ 52)); [exact Hpos|]. rewrite Hu. reflexivity.
  - set (j := ulp_exponent (inject_Z k)) in *.
    apply (round_double_exact _ (k * 2 ^ (- j))); [exact Hpos|]. fold j.
    rewrite inject_Z_mult, <- pow2_Z by lia.
    rewrite <- Qmult_assoc, <- pow2_plus.
    replace (- j + j) with 0 by lia. ring.
Qed.

(** ** Percentiles *)

Lemma py_int_floor (x : Q) : (0 <= x)%Q -> py_int x = Qfloor x.
Proof.
  intros Hx. unfold py_int. destruct x as [n d]. cbn.
  apply Z.quot_div_nonneg; [|lia].
  unfold Qle in Hx. cbn in Hx. lia.
Qed.

Lemma py_getitem_inrange {A} (l : list A) (i : Z) :
  0 <= i < Z.of_nat (length l) ->
  exists v, py_getitem l i = Ok v /\ l !! Z.to_nat i = Some v.
Proof.
  intros Hi. unfold py_getitem. cbv zeta.
  assert (H1 : (i <? 0) = false) by lia.
  assert (H2 : (Z.of_nat (length l) <=? i) = false) by lia.
  rewrite !H1, H2. cbn [orb].
  destruct (lookup_lt_is_Some_2 l (Z.to_nat i)) as [v Hv]; [lia|].
  exists v. now rewrite Hv.
Qed.

Lemma py_getitem_last {A} (l : list A) :
  l <> [] -> exists v, py_getitem l (-1) = Ok v /\ last l = Some v.
Proof.
  intros Hl. unfold py_getitem. cbv zeta. cbn [Z.ltb Z.compare].
  assert (0 < length l)%nat by (destruct l; [easy | cbn; lia]).
  assert (H1 : (Z.of_nat (length l) + -1 <? 0) = false) by lia.
  assert (H2 : (Z.of_nat (length l) <=? Z.of_nat (length l) + -1) = false)
    by lia.
  rewrite !H1, H2. cbn [orb]. rewrite last_lookup.
  replace (Z.to_nat (Z.of_nat (length l) + -1)) with (pred (length l)) by lia.
  destruct (lookup_lt_is_Some_2 l (pred (length l))) as [v Hv]; [lia|].
  exists v. now rewrite Hv.
Qed.

Lemma inject_Z_nonneg (k : Z) : 0 <= k -> (0 <= inject_Z k)%Q.
Proof. intros H. change 0%Q with (inject_Z 0). now rewrite <- Zle_Qle. Qed.

Lemma Qmult_le_l_weak (a x y : Q) :
  (0 <= a)%Q -> (x <= y)%Q -> (a * x <= a * y)%Q.
Proof.
  intros Ha Hxy. rewrite !(Qmult_comm a). now apply Qmult_le_compat_r.
Qed.

(** The length as a double: not negative, and at most 2^63. *)
Lemma float_len_bounds {A} (l : list A) :
  (0 <= float_len l)%Q /\ (float_len l <= 2 ^ 63)%Q.
Proof.
  unfold float_len, sys_maxsize. split.
  - apply round_double_nonneg, inject_Z_nonneg. lia.
  - apply Qle_trans with (round_double (inject_Z (2 ^ 63 - 1))).
    + apply round_double_mono; [apply inject_Z_nonneg; lia|].
      rewrite <- Zle_Qle. lia.
    + vm_compute. discriminate.
Qed.

(** A length up to 2^53 is a double. *)
Lemma float_len_exact {A} (l : list A) :
  Z.of_nat (length l) <= 2 ^ 53 ->
  (float_len l == inject_Z (Z.of_nat (length l)))%Q.
Proof.
  intros H. unfold float_len, sys_maxsize. rewrite Z.min_l by lia.
  apply round_double_Z. lia.
Qed.

(** A product between 0 and 2^1023 is finite. *)
Lemma float_mul_finite (a b : Q) :
  (0 <= a * b)%Q -> (a * b <= 2 ^ 1023)%Q ->
  float_mul a b = Some (round_double (a * b)).
Proof.
  intros H0 H1. unfold float_mul. cbv zeta.
  pose proof (round_double_nonneg _ H0) as Hr.
  rewrite (Qabs_pos_eq _ Hr).
  destruct (Qle_bool (2 ^ 1024) (round_double (a * b))) eqn:E; [|reflexivity].
  apply Qle_bool_iff in E. exfalso.
  pose proof (round_double_mono _ _ H0 H1) as Hm.
  assert (Hc : (round_double (2 ^ 1023) < 2 ^ 1024)%Q)
    by (vm_compute; reflexivity).
  apply (Qlt_irrefl (2 ^ 1024)).
  eapply Qle_lt_trans; [exact E|]. eapply Qle_lt_trans; [exact Hm | exact Hc].
Qed.

Lemma percentile_product (l : list Q) (p r : Q) :
  (0 <= p)%Q -> (p <= r)%Q ->
  (0 <= float_len l * p)%Q /\ (float_len l * p <= 2 ^ 63 * r)%Q.
Proof.
  intros H0 H1. destruct (float_len_bounds l) as [L0 L1]. split.
  - now apply Qmult_le_0_compat.
  - apply Qle_trans with (float_len l * r)%Q.
    + apply Qmult_le_l_weak; assumption.
    + apply Qmult_le_compat_r; [exact L1|]. now apply Qle_trans with p.
Qed.

(** The index of line 47 for a percentile in [[0,1]]: the floor of the
    rounded product, which is not negative. *)
Lemma get_percentile_lookup (l : list Q) (p : Q) :
  l <> [] -> (0 <= p)%Q -> (p <= 1)%Q ->
  0 <= Qfloor (round_double (float_len l * p))
  /\ exists v,
       get_percentile l p = Ok v
       /\ l !! Z.to_nat (Z.min (Qfloor (round_double (float_len l * p)))
                               (Z.of_nat (length l) - 1)) = Some v.
Proof.
  intros Hl H0 H1.
  assert (Hn : (0 < length l)%nat) by (destruct l; [easy | cbn; lia]).
  destruct (percentile_product l p 1 H0 H1) as [P0 P1].
  pose proof (round_double_nonneg _ P0) as Hr.
  assert (Hidx : 0 <= Qfloor (round_double (float_len l * p))).
  { change 0 with (Qfloor 0). now apply Qfloor_resp_le. }
  split; [exact Hidx|].
  unfold get_percentile. destruct l as [|x l'] eqn:E; [easy|].
  rewrite <- E in *. clear E.
  rewrite float_mul_finite; [|exact P0|].
  2:{ eapply Qle_trans; [exact P1|]. vm_compute. discriminate. }
  cbn [int_of_float mbind result_bind]. rewrite (py_int_floor _ Hr).
  apply py_getitem_inrange. lia.
Qed.

Lemma percentile_index_mono (l : list Q) (p q : Q) :
  (0 <= p)%Q -> (p <= q)%Q ->
  Qfloor (round_double (float_len l * p))
  <= Qfloor (round_double (float_len l * q)).
Proof.
  intros H0 Hpq. destruct (float_len_bounds l) as [L0 _].
  apply Qfloor_resp_le, round_double_mono.
  - now apply Qmult_le_0_compat.
  - apply Qmult_le_l_weak; assumption.
Qed.

Lemma sorted_lookup_le (l : list Q) (i j : nat) (a b : Q) :
  StronglySorted Qle l -> (i <= j)%nat ->
  l !! i = Some a -> l !! j = Some b -> (a <= b)%Q.
Proof.
  intros Hs. revert i j. induction Hs as [|x l Hs IH Hx]; intros i j Hij Hi Hj.
  - discriminate.
  - destruct i as [|i], j as [|j]; cbn in Hi, Hj.
    + injection Hi as <-. injection Hj as <-. apply Qle_refl.
    + injection Hi as <-. rewrite Forall_forall in Hx.
      apply Hx. eapply list_elem_of_lookup_2, Hj.
    + lia.
    + apply (IH i j); [lia | exact Hi | exact Hj].
Qed.

(** The double nearest to a number between two neighbouring integers up to
    2^53 is between them: its floor is the floor of the number, or one more
    when the number rounds up to the next integer. *)
Lemma round_double_floor (x : Q) :
  (0 <= x)%Q -> (x <= inject_Z (2 ^ 53))%Q ->
  Qfloor (round_double x) = Qfloor x
  \/ (Qfloor (round_double x) = Qfloor x + 1
      /\ (round_double x == inject_Z (Qfloor x + 1))%Q).
Proof.
  intros H0 H1.
  pose proof (Qfloor_le x) as F1. pose proof (Qlt_floor x) as F2.
  assert (Hf0 : 0 <= Qfloor x).
  { change 0 with (Qfloor 0). now apply Qfloor_resp_le. }
  assert (Hf1 : Qfloor x <= 2 ^ 53).
  { rewrite <- (Qfloor_Z (2 ^ 53)). now apply Qfloor_resp_le. }
  assert (Hlo : (inject_Z (Qfloor x) <= round_double x)%Q).
  { rewrite <- (round_double_Z (Qfloor x)) by lia.
    apply round_double_mono; [now apply inject_Z_nonneg | exact F1]. }
  assert (Hflo : Qfloor x <= Qfloor (round_double x)).
  { rewrite <- (Qfloor_Z (Qfloor x)) at 1. now apply Qfloor_resp_le. }
  destruct (Z.eq_dec (Qfloor x) (2 ^ 53)) as [E|NE].
  - left. assert (Hx : (x == inject_Z (Qfloor x))%Q).
    { apply Qle_antisym; [|exact F1]. now rewrite E. }
    rewrite (Qfloor_comp _ _ (round_double_comp _ _ H0 Hx)).
    rewrite (Qfloor_comp _ _ (round_double_Z _ (conj Hf0 Hf1))).
    apply Qfloor_Z.
  - assert (Hhi : (round_double x <= inject_Z (Qfloor x + 1))%Q).
    { rewrite <- (round_double_Z (Qfloor x + 1)) by lia.
      apply round_double_mono; [exact H0 | now apply Qlt_le_weak]. }
    assert (Hfhi : Qfloor (round_double x) <= Qfloor x + 1).
    { rewrite <- (Qfloor_Z (Qfloor x + 1)). now apply Qfloor_resp_le. }
    destruct (Z.eq_dec (Qfloor (round_double x)) (Qfloor x)) as [Ef|Nf];
      [now left | right].
    assert (Ef : Qfloor (round_double x) = Qfloor x + 1) by lia.
    split; [exact Ef|]. apply Qle_antisym; [exact Hhi|].
    rewrite <- Ef. apply Qfloor_le.
Qed.

Lemma nearest_rank_lt (n : nat) (p : Q) :
  (0 < n)%nat -> (nearest_rank n p < n)%nat.
Proof. intros Hn. unfold nearest_rank. lia. Qed.

Lemma one_to_ten_sorted : StronglySorted Qle one_to_ten.
Proof.
  unfold one_to_ten. cbn [map].
  repeat (constructor; [|repeat (constructor; [discriminate|]); constructor]).
  constructor.
Qed.

Lemma length_product (n : nat) (p : Q) :
  (0 <= p)%Q -> (p <= 1)%Q ->
  (0 <= inject_Z (Z.of_nat n) * p)%Q
  /\ (inject_Z (Z.of_nat n) * p <= inject_Z (Z.of_nat n))%Q.
Proof.
  intros H0 H1. pose proof (inject_Z_nonneg (Z.of_nat n) ltac:(lia)) as Hn.
  split; [now apply Qmult_le_0_compat|].
  rewrite <- (Qmult_1_r (inject_Z (Z.of_nat n))) at 2.
  apply Qmult_le_l_weak; assumption.
Qed.

(** On a list of up to 2^53 elements the code reads the element at the
    rounded rank. *)
Lemma get_percentile_rank (l : list Q) (p : Q) :
  l <> [] -> Z.of_nat (length l) <= 2 ^ 53 -> (0 <= p)%Q -> (p <= 1)%Q ->
  exists v, get_percentile l p = Ok v
            /\ l !! rounded_rank (length l) p = Some v.
Proof.
  intros Hl Hlen H0 H1.
  destruct (get_percentile_lookup l p Hl H0 H1) as [Hidx [v [Hv Hlook]]].
  exists v. split; [exact Hv|]. unfold rounded_rank.
  assert (E : Qfloor (round_double (inject_Z (Z.of_nat (length l)) * p))
              = Qfloor (round_double (float_len l * p))).
  { apply Qfloor_comp, round_double_comp.
    - apply length_product; assumption.
    - now rewrite (float_len_exact l Hlen). }
  rewrite E, Z.max_r; [exact Hlook|].
  assert (0 < length l)%nat by (destruct l; [easy | cbn; lia]). lia.
Qed.

(** The rounded rank is the nearest rank, or the next one when the product
    rounds up to an integer. *)
Lemma rounded_rank_nearest (n : nat) (p : Q) :
  (0 < n)%nat -> Z.of_nat n <= 2 ^ 53 -> (0 <= p)%Q -> (p <= 1)%Q ->
  rounded_rank n p = nearest_rank n p
  \/ (rounded_rank n p = S (nearest_rank n p)
      /\ (round_double (inject_Z (Z.of_nat n) * p)
          == inject_Z (Qfloor (inject_Z (Z.of_nat n) * p) + 1))%Q).
Proof.
  intros Hn Hlen H0 H1. destruct (length_product n p H0 H1) as [P0 P1].
  assert (Hf0 : 0 <= Qfloor (inject_Z (Z.of_nat n) * p)).
  { change 0 with (Qfloor 0). now apply Qfloor_resp_le. }
  unfold rounded_rank, nearest_rank.
  destruct (round_double_floor (inject_Z (Z.of_nat n) * p) P0)
    as [E|[E Hr]].
  - eapply Qle_trans; [exact P1|]. rewrite <- Zle_Qle. exact Hlen.
  - left. now rewrite E.
  - rewrite E.
    destruct (Z_lt_le_dec (Qfloor (inject_Z (Z.of_nat n) * p))
                          (Z.of_nat n - 1)) as [Hlt|Hge].
    + right. split; [lia | exact Hr].
    + left. lia.
Qed.

Lemma rounded_rank_0 (n : nat) (p : Q) : (p == 0)%Q -> rounded_rank n p = O.
Proof.
  intros Hp. unfold rounded_rank.
  rewrite round_double_0 by (rewrite Hp; ring).
  change (Qfloor 0) with 0. lia.
Qed.

Lemma rounded_rank_1 (n : nat) (p : Q) :
  Z.of_nat n <= 2 ^ 53 -> (p == 1)%Q -> rounded_rank n p = pred n.
Proof.
  intros Hlen Hp. unfold rounded_rank.
  assert (E : Qfloor (round_double (inject_Z (Z.of_nat n) * p)) = Z.of_nat n).
  { rewrite <- (Qfloor_Z (Z.of_nat n)) at 2.
    apply Qfloor_comp.
    rewrite <- (round_double_Z (Z.of_nat n)) at 2 by lia.
    apply round_double_comp.
    - rewrite Hp, Qmult_1_r. apply inject_Z_nonneg. lia.
    - rewrite Hp. ring. }
  rewrite E. lia.
Qed.

(** C5, as the code has it: on a non-empty ascending list of up to 2^53
    values and a percentile [p] in [[0,1]], [get_percentile] returns the
    element at index [floor(fl(n*p))] clamped to [[0, n-1]], where [fl]
    rounds the product to the nearest double.  This index is [floor(n*p)], or
    one more when the product rounds up to the next integer.  For [p = 0] the
    element is the first one, the minimum, and for [p = 1] the last one, the
    maximum.  Of the ten values 1..10 the median ([p = 0.5]) is 6 and the
    95th percentile is 10. *)
Theorem get_percentile_rounded_rank :
  (forall (l : list Q) (p : Q),
      l <> [] -> StronglySorted Qle l -> Z.of_nat (length l) <= 2 ^ 53 ->
      (0 <= p)%Q -> (p <= 1)%Q ->
      exists v,
        get_percentile l p = Ok v
        /\ l !! rounded_rank (length l) p = Some v
        /\ (rounded_rank (length l) p = nearest_rank (length l) p
            \/ (rounded_rank (length l) p = S (nearest_rank (length l) p)
                /\ (round_double (inject_Z (Z.of_nat (length l)) * p)
                    == inject_Z
                         (Qfloor (inject_Z (Z.of_nat (length l)) * p) + 1))%Q))
        /\ ((p == 0)%Q -> head l = Some v /\ Forall (fun x => (v <= x)%Q) l)
        /\ ((p == 1)%Q -> last l = Some v /\ Forall (fun x => (x <= v)%Q) l))
  /\ get_percentile one_to_ten (1 # 2) = Ok 6%Q
  /\ get_percentile one_to_ten (round_double (95 # 100)) = Ok 10%Q.
Proof.
  split; [|split; vm_compute; reflexivity].
  intros l p Hl Hs Hlen H0 H1.
  assert (Hn : (0 < length l)%nat) by (destruct l; [easy | cbn; lia]).
  destruct (get_percentile_rank l p Hl Hlen H0 H1) as [v [Hv Hlook]].
  exists v. split; [exact Hv|]. split; [exact Hlook|].
  split; [now apply rounded_rank_nearest|]. split; intros Hp.
  - rewrite (rounded_rank_0 _ _ Hp) in Hlook. split.
    + now rewrite head_lookup.
    + apply Forall_forall. intros x Hx.
      apply list_elem_of_lookup_1 in Hx as [j Hj].
      apply (sorted_lookup_le l 0 j v x Hs); [lia | exact Hlook | exact Hj].
  - rewrite (rounded_rank_1 _ _ Hlen Hp) in Hlook. split.
    + now rewrite last_lookup.
    + apply Forall_forall. intros x Hx.
      apply list_elem_of_lookup_1 in Hx as [j Hj].
      apply (sorted_lookup_le l j (pred (length l)) x v Hs);
        [|exact Hj | exact Hlook].
      apply lookup_lt_Some in Hj. lia.
Qed.

(** The maximum of 1..10 is its percentile 1. *)
Lemma get_percentile_rounded_rank_witness :
  exists v,
    get_percentile one_to_ten 1 = Ok v
    /\ one_to_ten !! rounded_rank (length one_to_ten) 1 = Some v
    /\ (rounded_rank (length one_to_ten) 1
        = nearest_rank (length one_to_ten) 1
        \/ (rounded_rank (length one_to_ten) 1
            = S (nearest_rank (length one_to_ten) 1)
            /\ (round_double (inject_Z (Z.of_nat (length one_to_ten)) * 1)
                == inject_Z
                     (Qfloor (inject_Z (Z.of_nat (length one_to_ten)) * 1)
                      + 1))%Q))
    /\ ((1 == 0)%Q ->
        head one_to_ten = Some v /\ Forall (fun x => (v <= x)%Q) one_to_ten)
    /\ ((1 == 1)%Q ->
        last one_to_ten = Some v /\ Forall (fun x => (x <= v)%Q) one_to_ten).
Proof.
  apply (proj1 get_percentile_rounded_rank).
  - discriminate.
  - exact one_to_ten_sorted.
  - vm_compute. discriminate.
  - discriminate.
  - discriminate.
Defined.

(** The index is not always [floor(n*p)].  The double nearest to 1/3 is
    below 1/3, so that three times it is below 1 and the nearest rank of
    three values is 0; the product rounds to 1, and the code reads the second
    value. *)
Lemma get_percentile_not_nearest_rank :
  [1%Q; 2%Q; 3%Q] <> []
  /\ StronglySorted Qle [1%Q; 2%Q; 3%Q]
  /\ (round_double (1 # 3) == 6004799503160661 # 18014398509481984)%Q
  /\ (0 <= round_double (1 # 3))%Q /\ (round_double (1 # 3) <= 1)%Q
  /\ [1%Q; 2%Q; 3%Q] !! nearest_rank 3 (round_double (1 # 3)) = Some 1%Q
  /\ get_percentile [1%Q; 2%Q; 3%Q] (round_double (1 # 3)) = Ok 2%Q.
Proof.
  split; [discriminate|]. split.
  { repeat (constructor; [|repeat (constructor; [discriminate|]); constructor]).
    constructor. }
  split; [vm_compute; reflexivity|].
  split; [vm_compute; discriminate|]. split; [vm_compute; discriminate|].
  split; vm_compute; reflexivity.
Qed.

(** ** Distribution and variability tables *)

Lemma stage_row_ok (avg_total : Q) (name : string) (t : Q) :
  stage_row avg_total (name, t)
  = ([StageRow name t (if negb (Qle_bool avg_total 0)
                       then t / avg_total * 100 else 0)%Q], Ok tt).
Proof.
  unfold stage_row. destruct (Qle_bool avg_total 0) eqn:E; cbn [negb].
  - rewrite bind_ret. reflexivity.
  - rewrite py_div_ok.
    + cbn [mbind result_bind]. rewrite bind_lift_ok. reflexivity.
    + intros H. rewrite H in E. discriminate.
Qed.

Lemma print_timings_ok (avg_total : Q) (stages : list (string * Q)) :
  print_timings avg_total stages
  = ([Text "AVERAGE TIMINGS PER PHOTO:"; Rule "-" 70;
      Columns ["Stage"; "Time (ms)"; "% of Total"]; Rule "-" 70]
     ++ map (fun st : string * Q =>
               StageRow (fst st) (snd st)
                 (if negb (Qle_bool avg_total 0)
                  then snd st / avg_total * 100 else 0)%Q) stages
     ++ [TotalRow avg_total; Blank], Ok tt).
Proof.
  unfold print_timings.
  rewrite (for_each_rows (stage_row avg_total)
             (fun st : string * Q =>
                StageRow (fst st) (snd st)
                  (if negb (Qle_bool avg_total 0)
                   then snd st / avg_total * 100 else 0)%Q) stages).
  - reflexivity.
  - apply Forall_forall. intros [name t] _. apply stage_row_ok.
Qed.

Lemma dist_row_ordered (name : string) (times : list Q) :
  times <> [] -> StronglySorted Qle times ->
  exists stats,
    dist_row name times
    = ([let '(lo, median, p95, hi) := stats in
        DistRow name lo median p95 hi], Ok tt)
    /\ ordered_stats times stats.
Proof.
  intros Hne Hs.
  assert (Hn : (0 < length times)%nat) by (destruct times; [easy | cbn; lia]).
  assert (H95 : (1 # 2 <= round_double (95 # 100))%Q
                /\ (round_double (95 # 100) <= 1)%Q)
    by (split; vm_compute; discriminate).
  destruct (py_getitem_inrange times 0) as [lo [Hlo Llo]]; [lia|].
  destruct (get_percentile_lookup times (1 # 2) Hne)
    as [Imed [med [Hmed Lmed]]]; [discriminate | discriminate |].
  destruct (get_percentile_lookup times (round_double (95 # 100)) Hne)
    as [I95 [p95 [Hp95 Lp95]]];
    [now apply Qle_trans with (1 # 2)%Q | apply H95 |].
  pose proof (percentile_index_mono times (1 # 2) (round_double (95 # 100))
                ltac:(discriminate) (proj1 H95)) as Hmono.
  destruct (py_getitem_last times Hne) as [hi [Hhi Lhi]].
  exists (lo, med, p95, hi). split.
  - unfold dist_row. rewrite Hlo, Hmed, Hp95, Hhi, !bind_lift_ok. reflexivity.
  - cbn [ordered_stats].
    split; [now rewrite head_lookup|]. split; [exact Lhi|].
    rewrite last_lookup in Lhi.
    repeat split.
    + eapply (sorted_lookup_le times); [exact Hs| |exact Llo|exact Lmed]. lia.
    + eapply (sorted_lookup_le times); [exact Hs| |exact Lmed|exact Lp95]. lia.
    + eapply (sorted_lookup_le times); [exact Hs| |exact Lp95|exact Lhi]. lia.
Qed.

Lemma sorted_ms_nonempty (photos : list PhotoRecord) (field : PhotoRecord -> Z) :
  photos <> [] -> sorted_ms photos field <> [].
Proof.
  intros Hne Hnil. apply (f_equal length) in Hnil.
  unfold sorted_ms in Hnil. rewrite py_sorted_length, length_map in Hnil.
  destruct photos; [easy | discriminate].
Qed.

Lemma print_distribution_ordered (photos : list PhotoRecord) :
  photos <> [] ->
  exists s1 s2 s3 s4,
    print_distribution photos
    = ([Text "DISTRIBUTION STATS:"; Rule "-" 70;
        Columns ["Stage"; "Min"; "Median"; "P95"; "Max"]; Rule "-" 70;
        (let '(lo, median, p95, hi) := s1 in
         DistRow "Image Decode" lo median p95 hi);
        (let '(lo, median, p95, hi) := s2 in
         DistRow "Thumbnails" lo median p95 hi);
        (let '(lo, median, p95, hi) := s3 in
         DistRow "Color Extract" lo median p95 hi);
        (let '(lo, median, p95, hi) := s4 in
         DistRow "TOTAL" lo median p95 hi);
        Blank], Ok tt)
    /\ ordered_stats (sorted_ms photos ImageDecodeTime) s1
    /\ ordered_stats (sorted_ms photos ThumbnailTime) s2
    /\ ordered_stats (sorted_ms photos ColorTime) s3
    /\ ordered_stats (sorted_ms photos TotalTime) s4.
Proof.
  intros Hne.
  pose proof (fun name field =>
    dist_row_ordered name (sorted_ms photos field)
      (sorted_ms_nonempty photos field Hne) (py_sorted_Q_ascending _)) as H.
  destruct (H "Image Decode" ImageDecodeTime) as [s1 [E1 O1]].
  destruct (H "Thumbnails" ThumbnailTime) as [s2 [E2 O2]].
  destruct (H "Color Extract" ColorTime) as [s3 [E3 O3]].
  destruct (H "TOTAL" TotalTime) as [s4 [E4 O4]].
  exists s1, s2, s3, s4. split; [|easy].
  unfold print_distribution. cbv zeta. rewrite E1, E2, E3, E4. reflexivity.
Qed.

Lemma print_variability_ok (photos : list PhotoRecord) :
  print_variability photos
  = ([Text "VARIABILITY (Coefficient of Variation %):"; Rule "-" 70]
     ++ map (fun '(name, cv) => CvRow name cv) (variability_ranking photos),
     Ok tt).
Proof.
  unfold print_variability.
  rewrite (for_each_rows (fun '(name, cv) => print (CvRow name cv))
             (fun '(name, cv) => CvRow name cv) (variability_ranking photos)).
  - reflexivity.
  - apply Forall_forall. intros [name cv] _. reflexivity.
Qed.

Lemma dist_rows_cv (rows : list (string * R)) :
  dist_rows (map (fun '(name, cv) => CvRow name cv) rows) = [].
Proof. induction rows as [|[name cv] rows IH]; [reflexivity | exact IH]. Qed.

Lemma cv_rows_cv (rows : list (string * R)) :
  cv_rows (map (fun '(name, cv) => CvRow name cv) rows) = rows.
Proof.
  induction rows as [|[name cv] rows IH]; [reflexivity|].
  cbn. unfold cv_rows in IH. now rewrite IH.
Qed.

(** The tables of an analysis that completes. *)
Lemma analyze_photos_report (photos : list PhotoRecord) (label : string) :
  photos <> [] ->
  sum_Z (map TotalTime photos) <> 0 ->
  exists s1 s2 s3 s4,
    outcome (analyze_photos photos label) = Ok tt
    /\ dist_rows (output (analyze_photos photos label))
       = [("Image Decode", s1); ("Thumbnails", s2);
          ("Color Extract", s3); ("TOTAL", s4)]
    /\ cv_rows (output (analyze_photos photos label))
       = variability_ranking photos
    /\ ordered_stats (sorted_ms photos ImageDecodeTime) s1
    /\ ordered_stats (sorted_ms photos ThumbnailTime) s2
    /\ ordered_stats (sorted_ms photos ColorTime) s3
    /\ ordered_stats (sorted_ms photos TotalTime) s4.
Proof.
  intros Hne Htot.
  destruct (print_distribution_ordered photos Hne)
    as (s1 & s2 & s3 & s4 & Hd & O1 & O2 & O3 & O4).
  exists s1, s2, s3, s4.
  rewrite (analyze_photos_unfold _ _ Hne). cbv zeta.
  rewrite (print_counts_ok _ _ _ Hne Htot), print_timings_ok, Hd,
    print_variability_ok.
  destruct s1 as [[[? ?] ?] ?], s2 as [[[? ?] ?] ?],
           s3 as [[[? ?] ?] ?], s4 as [[[? ?] ?] ?].
  cbn [mbind io_bind print fst snd app map output outcome].
  split; [reflexivity|].
  split; [|split; [|easy]].
  - cbn [dist_rows omap list_omap]. do 4 f_equal. apply dist_rows_cv.
  - cbn [cv_rows omap list_omap]. apply cv_rows_cv.
Qed.

Lemma get_percentile_monotone (l : list Q) (p q v w : Q) :
  l <> [] -> StronglySorted Qle l ->
  (0 <= p)%Q -> (p <= q)%Q -> (q <= 1)%Q ->
  get_percentile l p = Ok v -> get_percentile l q = Ok w -> (v <= w)%Q.
Proof.
  intros Hne Hs H0 Hpq H1 Hv Hw.
  destruct (get_percentile_lookup l p Hne H0) as [Ip [v' [Hv' Lv]]];
    [now apply Qle_trans with q|].
  destruct (get_percentile_lookup l q Hne) as [Iq [w' [Hw' Lw]]];
    [now apply Qle_trans with p | exact H1 |].
  rewrite Hv in Hv'. rewrite Hw in Hw'.
  injection Hv' as <-. injection Hw' as <-.
  pose proof (percentile_index_mono l p q H0 Hpq).
  eapply sorted_lookup_le; [exact Hs | | exact Lv | exact Lw]. lia.
Qed.

Lemma ordered_stats_in_order (name : string) (times : list Q) stats :
  ordered_stats times stats -> in_order (name, stats).
Proof. destruct stats as [[[lo med] p95] hi]. cbn. tauto. Qed.

(** C9: every row of the distribution table that an analysis prints reads
    min <= median <= p95 <= max; a non-empty subset with a non-zero total
    time gets the four rows, each with the first and the last of the sorted
    values as its ends; and [get_percentile] is monotone in the percentile
    over one sorted list. *)
Theorem distribution_stats_ordered :
  (forall (photos : list PhotoRecord) (label : string),
      Forall in_order (dist_rows (output (analyze_photos photos label))))
  /\ (forall (photos : list PhotoRecord) (label : string),
         photos <> [] -> sum_Z (map TotalTime photos) <> 0 ->
         exists s1 s2 s3 s4,
           dist_rows (output (analyze_photos photos label))
           = [("Image Decode", s1); ("Thumbnails", s2);
              ("Color Extract", s3); ("TOTAL", s4)]
           /\ ordered_stats (sorted_ms photos ImageDecodeTime) s1
           /\ ordered_stats (sorted_ms photos ThumbnailTime) s2
           /\ ordered_stats (sorted_ms photos ColorTime) s3
           /\ ordered_stats (sorted_ms photos TotalTime) s4)
  /\ (forall (l : list Q) (p q v w : Q),
         l <> [] -> StronglySorted Qle l ->
         (0 <= p)%Q -> (p <= q)%Q -> (q <= 1)%Q ->
         get_percentile l p = Ok v -> get_percentile l q = Ok w ->
         (v <= w)%Q).
Proof.
  split; [|split].
  - intros photos label.
    destruct photos as [|p0 l0] eqn:E; [constructor|]. rewrite <- E.
    assert (Hne : photos <> []) by (subst; discriminate).
    destruct (Z.eq_dec (sum_Z (map TotalTime photos)) 0) as [Hz|Hnz].
    + rewrite (analyze_photos_throughput _ _ Hne Hz). constructor.
    + destruct (analyze_photos_report photos label Hne Hnz)
        as (s1 & s2 & s3 & s4 & _ & -> & _ & O1 & O2 & O3 & O4).
      repeat constructor; eapply ordered_stats_in_order; eassumption.
  - intros photos label Hne Hnz.
    destruct (analyze_photos_report photos label Hne Hnz)
      as (s1 & s2 & s3 & s4 & _ & Hrows & _ & O).
    now exists s1, s2, s3, s4.
  - exact get_percentile_monotone.
Qed.

Lemma distribution_stats_ordered_witness :
  exists s1 s2 s3 s4,
    dist_rows (output (analyze_photos sample_photos ".dng files"))
    = [("Image Decode", s1); ("Thumbnails", s2);
       ("Color Extract", s3); ("TOTAL", s4)]
    /\ ordered_stats (sorted_ms sample_photos ImageDecodeTime) s1
    /\ ordered_stats (sorted_ms sample_photos ThumbnailTime) s2
    /\ ordered_stats (sorted_ms sample_photos ColorTime) s3
    /\ ordered_stats (sorted_ms sample_photos TotalTime) s4.
Proof.
  apply (proj1 (proj2 distribution_stats_ordered)).
  - discriminate.
  - vm_compute. discriminate.
Defined.

(** ** Variability ranking *)

Lemma variability_names (photos : list PhotoRecord) :
  map fst (variability photos)
  = ["Hash"; "Metadata"; "Image Decode"; "Thumbnails"; "Color Extract";
     "Perceptual Hash"; "Database"].
Proof. reflexivity. Qed.

Lemma variability_ranking_perm (photos : list PhotoRecord) :
  Permutation (variability_ranking photos) (variability photos).
Proof. apply py_sorted_perm. Qed.

(** What the code does rank is in descending order of CV, and stages with
    the same CV keep their declaration order. *)
Lemma variability_ranking_descending_stable (photos : list PhotoRecord) :
  StronglySorted (fun a b => (snd b <= snd a)%R) (variability_ranking photos)
  /\ forall cv : R,
       List.filter (fun x => Req_bool (snd x) cv) (variability_ranking photos)
       = List.filter (fun x => Req_bool (snd x) cv) (variability photos).
Proof.
  split; [apply py_sorted_R_descending|].
  intros cv. apply py_sorted_stable. intros x y Hx Hy.
  unfold Req_bool in Hx, Hy.
  destruct (Req_dec_T (snd x) cv) as [->|]; [|discriminate].
  destruct (Req_dec_T (snd y) cv) as [->|]; [|discriminate].
  unfold Rle_bool. destruct (Rle_dec cv cv) as [|Hn]; [reflexivity|].
  exfalso. apply Hn. lra.
Qed.

(** C3: the variability table ranks seven stages. "Inference", a stage of
    the declared set and of the timings table, is not among them, whatever
    the records are; the seven are in descending order of CV, ties in
    declaration order. *)
Theorem variability_ranking_omits_inference
    (photos : list PhotoRecord) (label : string) :
  In "Inference" stage_names
  /\ Permutation (map fst (variability_ranking photos))
       ["Hash"; "Metadata"; "Image Decode"; "Thumbnails"; "Color Extract";
        "Perceptual Hash"; "Database"]
  /\ ~ In "Inference" (map fst (variability_ranking photos))
  /\ ~ In "Inference"
       (map fst (cv_rows (output (analyze_photos photos label))))
  /\ StronglySorted (fun a b => (snd b <= snd a)%R)
       (variability_ranking photos).
Proof.
  assert (Hperm : Permutation (map fst (variability_ranking photos))
            ["Hash"; "Metadata"; "Image Decode"; "Thumbnails";
             "Color Extract"; "Perceptual Hash"; "Database"]).
  { rewrite <- (variability_names photos).
    apply Permutation_map, variability_ranking_perm. }
  assert (Hnot : ~ In "Inference" (map fst (variability_ranking photos))).
  { intros Hin. apply (Permutation_in _ Hperm) in Hin.
    cbn in Hin. intuition discriminate. }
  split; [cbn; tauto|]. split; [exact Hperm|]. split; [exact Hnot|].
  split; [|apply variability_ranking_descending_stable].
  destruct photos as [|p0 l0] eqn:E; [cbn; tauto|]. rewrite <- E in *.
  assert (Hne : photos <> []) by (subst; discriminate).
  destruct (Z.eq_dec (sum_Z (map TotalTime photos)) 0) as [Hz|Hnz].
  - rewrite (analyze_photos_throughput _ _ Hne Hz). cbn. tauto.
  - destruct (analyze_photos_report photos label Hne Hnz)
      as (s1 & s2 & s3 & s4 & _ & _ & -> & _).
    exact Hnot.
Qed.

(** ** Coefficient of variation *)

Lemma foldl_Zadd (l : list Z) (a : Z) :
  foldl Z.add a l = a + fold_right Z.add 0 l.
Proof.
  revert a. induction l as [|x l IH]; intros a; cbn; [lia|].
  rewrite IH. lia.
Qed.

Lemma IZR_sum_Z (l : list Z) : IZR (sum_Z l) = sum_R (map IZR l).
Proof.
  unfold sum_Z. rewrite foldl_Zadd, Z.add_0_l.
  induction l as [|x l IH]; [reflexivity|].
  cbn. now rewrite plus_IZR, IH.
Qed.

Lemma Q2R_inject_Z (z : Z) : Q2R (inject_Z z) = IZR z.
Proof. unfold Q2R. cbn. field. Qed.

Lemma Q2R_len {A} (l : list A) : Q2R (len l) = INR (length l).
Proof. unfold len. now rewrite Q2R_inject_Z, INR_IZR_INZ. Qed.

Lemma Q2R_sum_Q (l : list Q) : Q2R (sum_Q l) = sum_R (map Q2R l).
Proof.
  unfold sum_Q.
  assert (H : forall a, Q2R (foldl Qplus a l)
                        = (Q2R a + sum_R (map Q2R l))%R).
  { induction l as [|x l IH]; intros a; cbn.
    - now rewrite Rplus_0_r.
    - rewrite IH, Q2R_plus. apply Rplus_assoc. }
  rewrite H, RMicromega.Q2R_0. apply Rplus_0_l.
Qed.

Lemma Q2R_square (x : Q) : Q2R (x ^ 2) = (Q2R x ^ 2)%R.
Proof.
  change (x ^ 2)%Q with (x * x)%Q. rewrite Q2R_mult. cbn.
  now rewrite Rmult_1_r.
Qed.

Section CvFacts.
Variable values : list Z.
Hypothesis two : (2 <= length values)%nat.

Let mean : Q := (inject_Z (sum_Z values) / len values)%Q.

Lemma len_two_nonzero : ~ (len values == 0)%Q.
Proof. apply len_nonzero. destruct values; [cbn in two; lia | discriminate]. Qed.

Lemma Q2R_mean : Q2R mean = mean_R values.
Proof.
  unfold mean, mean_R.
  rewrite Q2R_div by exact len_two_nonzero.
  now rewrite Q2R_inject_Z, IZR_sum_Z, Q2R_len.
Qed.

Lemma Q2R_variance :
  Q2R (sum_Q (map (fun v => (inject_Z v - mean) ^ 2) values) / len values)%Q
  = population_variance values.
Proof.
  unfold population_variance.
  rewrite Q2R_div by exact len_two_nonzero.
  rewrite Q2R_sum_Q, Q2R_len, map_map. f_equal. f_equal.
  apply map_ext. intros v.
  now rewrite Q2R_square, Q2R_minus, Q2R_inject_Z, Q2R_mean.
Qed.

Lemma mean_zero_iff : Qeq_bool mean 0 = true <-> mean_R values = 0%R.
Proof.
  rewrite <- Q2R_mean, Qeq_bool_iff. split.
  - intros H. rewrite (Qeq_eqR _ _ H). apply RMicromega.Q2R_0.
  - intros H. apply eqR_Qeq. rewrite H. symmetry. apply RMicromega.Q2R_0.
Qed.

Lemma coefficient_of_variation_two :
  coefficient_of_variation values
  = if Qeq_bool mean 0 then 0%R
    else (population_std_dev values / mean_R values * 100)%R.
Proof.
  unfold coefficient_of_variation.
  destruct (Nat.ltb_spec (length values) 2) as [?|_]; [lia|].
  fold mean. destruct (Qeq_bool mean 0); [reflexivity|].
  unfold population_std_dev. now rewrite Q2R_variance, Q2R_mean.
Qed.
End CvFacts.

(** C6: the coefficient of variation is the population standard deviation
    (variance with divisor [n]) over the mean, times 100; it is 0 for fewer
    than two values and for a zero mean.  CV of 10, 10, 10 is 0 and CV of
    0, 10 is 100. *)
Theorem coefficient_of_variation_population :
  (forall values : list Z,
      ((length values < 2)%nat \/ mean_R values = 0%R ->
       coefficient_of_variation values = 0%R)
      /\ ((2 <= length values)%nat -> mean_R values <> 0%R ->
          coefficient_of_variation values
          = (population_std_dev values / mean_R values * 100)%R))
  /\ coefficient_of_variation [10; 10; 10] = 0%R
  /\ coefficient_of_variation [0; 10] = 100%R.
Proof.
  assert (Hgen : forall values : list Z,
      ((length values < 2)%nat \/ mean_R values = 0%R ->
       coefficient_of_variation values = 0%R)
      /\ ((2 <= length values)%nat -> mean_R values <> 0%R ->
          coefficient_of_variation values
          = (population_std_dev values / mean_R values * 100)%R)).
  { intros values. split.
    - intros H. destruct (Nat.ltb_spec (length values) 2) as [Hlt|Hge].
      + unfold coefficient_of_variation.
        now destruct (Nat.ltb_spec (length values) 2); [|lia].
      + destruct H as [?|Hz]; [lia|].
        rewrite (coefficient_of_variation_two _ Hge).
        apply (mean_zero_iff _ Hge) in Hz. now rewrite Hz.
    - intros Hge Hnz. rewrite (coefficient_of_variation_two _ Hge).
      destruct (Qeq_bool _ 0) eqn:E; [|reflexivity].
      apply (mean_zero_iff _ Hge) in E. contradiction. }
  split; [exact Hgen|]. split.
  - destruct (Hgen [10; 10; 10]) as [_ ->].
    + unfold population_std_dev, population_variance, mean_R.
      cbn [map sum_R fold_right length INR].
      replace (_ / (1 + 1 + 1))%R with 0%R at 1 by (cbn; field).
      rewrite sqrt_0. field.
    + cbn; lia.
    + unfold mean_R. cbn [map sum_R fold_right length INR]. lra.
  - destruct (Hgen [0; 10]) as [_ ->].
    + unfold population_std_dev, population_variance, mean_R.
      cbn [map sum_R fold_right length INR].
      replace (_ / (1 + 1))%R with (5 * 5)%R at 1 by (cbn; field).
      rewrite sqrt_square by lra. field.
    + cbn; lia.
    + unfold mean_R. cbn [map sum_R fold_right length INR]. lra.
Qed.

Lemma coefficient_of_variation_population_witness :
  coefficient_of_variation [0; 10]
  = (population_std_dev [0%Z; 10%Z] / mean_R [0%Z; 10%Z] * 100)%R.
Proof.
  apply (proj1 coefficient_of_variation_population).
  - cbn; lia.
  - unfold mean_R. cbn [map sum_R fold_right length INR]. lra.
Defined.

(** ** Comparator *)

Lemma py_lookup_get (s : gmap string Q) (key : string) :
  is_Some (s !! key) -> py_lookup s key = Ok (summary_get s key).
Proof. intros [v Hv]. unfold py_lookup, summary_get. now rewrite Hv. Qed.

Lemma has_schema_key (s : gmap string Q) (key : string) :
  has_schema s -> In key summary_keys -> is_Some (s !! key).
Proof.
  unfold has_schema. rewrite Forall_forall. intros H Hin.
  apply H, list_elem_of_In, Hin.
Qed.

Lemma has_schema_stage (s : gmap string Q) (stage : string * string) :
  has_schema s -> In stage stages -> is_Some (s !! snd stage).
Proof.
  intros H Hin. apply (has_schema_key s _ H).
  unfold summary_keys. apply in_or_app. right. now apply in_map.
Qed.

Section Compare.
Variables small large : gmap string Q.
Hypothesis small_schema : has_schema small.
Hypothesis large_schema : has_schema large.

Let small_total := summary_get small "AvgTotalMs".
Let large_total := summary_get large "AvgTotalMs".

Lemma total_lookup (s : gmap string Q) :
  has_schema s -> py_lookup s "AvgTotalMs" = Ok (summary_get s "AvgTotalMs").
Proof.
  intros H. apply py_lookup_get, (has_schema_key s _ H). cbn. tauto.
Qed.

Lemma abs_row_ok (stage : string * string) :
  In stage stages ->
  abs_row small large stage
  = ([AbsRow (fst stage)
        (summary_get small (snd stage)) (summary_get large (snd stage))
        (summary_get large (snd stage) - summary_get small (snd stage))
        (rel_change (summary_get small (snd stage))
                    (summary_get large (snd stage)))], Ok tt).
Proof.
  intros Hin. destruct stage as [name key]. unfold abs_row.
  rewrite (py_lookup_get small key)
    by exact (has_schema_stage _ _ small_schema Hin).
  rewrite (py_lookup_get large key)
    by exact (has_schema_stage _ _ large_schema Hin).
  rewrite !bind_lift_ok. cbn [fst snd]. unfold rel_change.
  destruct (Qle_bool (summary_get small key) 0) eqn:E; cbn [negb].
  - rewrite bind_ret. reflexivity.
  - rewrite py_div_ok.
    + cbn [mbind result_bind]. rewrite bind_lift_ok. reflexivity.
    + intros H. rewrite H in E. discriminate.
Qed.

(** With a zero total on either side the first percentage row fails. *)
Lemma pct_row_zero_total (stage : string * string) :
  In stage stages ->
  (small_total == 0)%Q ->
  pct_row small large stage = ([], Raise ZeroDivisionError).
Proof.
  intros Hin Hz. destruct stage as [name key]. unfold pct_row.
  rewrite (py_lookup_get small key)
    by exact (has_schema_stage _ _ small_schema Hin).
  rewrite (total_lookup small small_schema).
  cbn [mbind result_bind]. fold small_total.
  rewrite (py_div_zero _ _ Hz). reflexivity.
Qed.

Hypothesis small_nonzero : ~ (small_total == 0)%Q.
Hypothesis large_nonzero : ~ (large_total == 0)%Q.

Lemma pct_row_ok (stage : string * string) :
  In stage stages ->
  pct_row small large stage
  = ([PctRow (fst stage)
        (summary_get small (snd stage) / small_total * 100)
        (summary_get large (snd stage) / large_total * 100)
        (summary_get large (snd stage) / large_total * 100
         - summary_get small (snd stage) / small_total * 100)%Q], Ok tt).
Proof.
  intros Hin. destruct stage as [name key]. unfold pct_row.
  rewrite (py_lookup_get small key)
    by exact (has_schema_stage _ _ small_schema Hin).
  rewrite (py_lookup_get large key)
    by exact (has_schema_stage _ _ large_schema Hin).
  rewrite (total_lookup small small_schema), (total_lookup large large_schema).
  cbn [mbind result_bind]. fold small_total large_total.
  rewrite (py_div_ok _ _ small_nonzero), (py_div_ok _ _ large_nonzero).
  reflexivity.
Qed.

Lemma total_row_ok :
  total_row small large
  = ([TotalCmp small_total large_total (large_total - small_total)
        ((large_total / small_total - 1) * 100)%Q], Ok tt).
Proof.
  unfold total_row.
  rewrite (total_lookup small small_schema), (total_lookup large large_schema).
  rewrite !bind_lift_ok. fold small_total large_total.
  rewrite (py_div_ok _ _ small_nonzero). reflexivity.
Qed.
End Compare.

(** The report of a comparison between two summaries with the fixed schema
    and non-zero totals. *)
Lemma compare_summaries_report (small large : Dataset) :
  has_schema (summary small) -> has_schema (summary large) ->
  ~ (summary_get (summary small) "AvgTotalMs" == 0)%Q ->
  ~ (summary_get (summary large) "AvgTotalMs" == 0)%Q ->
  outcome (compare_summaries small large) = Ok tt
  /\ pct_deltas (output (compare_summaries small large))
     = map (fun st : string * string =>
              (fst st,
               (summary_get (summary large) (snd st)
                / summary_get (summary large) "AvgTotalMs" * 100
                - summary_get (summary small) (snd st)
                  / summary_get (summary small) "AvgTotalMs" * 100)%Q))
           stages
  /\ abs_deltas (output (compare_summaries small large))
     = map (fun st : string * string =>
              (fst st,
               (summary_get (summary large) (snd st)
                - summary_get (summary small) (snd st))%Q))
           stages.
Proof.
  intros Hs Hl Hsz Hlz. unfold compare_summaries. cbv zeta.
  assert (Hk : forall s key, has_schema s -> In key summary_keys ->
                 py_lookup s key = Ok (summary_get s key)).
  { intros s key H Hin. apply py_lookup_get, (has_schema_key s key H Hin). }
  rewrite !(Hk _ "ProcessedPhotos"), !(Hk _ "TotalBytes"),
    !(Hk _ "AvgThroughputMBps") by (assumption || (cbn; tauto)).
  rewrite (for_each_rows (pct_row (summary small) (summary large)) _ stages
             (proj2 (Forall_forall _ _)
                (fun st Hin => pct_row_ok _ _ Hs Hl Hsz Hlz st
                                 (proj1 (list_elem_of_In _ _) Hin)))).
  rewrite (for_each_rows (abs_row (summary small) (summary large)) _ stages
             (proj2 (Forall_forall _ _)
                (fun st Hin => abs_row_ok _ _ Hs Hl st
                                 (proj1 (list_elem_of_In _ _) Hin)))).
  rewrite (total_row_ok _ _ Hs Hl Hsz).
  repeat split.
Qed.

(** The total line of such a comparison: the relative change of the total
    is computed from the two totals, without the guard of the stage rows. *)
Lemma compare_summaries_total (small large : Dataset) :
  has_schema (summary small) -> has_schema (summary large) ->
  ~ (summary_get (summary small) "AvgTotalMs" == 0)%Q ->
  ~ (summary_get (summary large) "AvgTotalMs" == 0)%Q ->
  last (output (compare_summaries small large))
  = Some (TotalCmp (summary_get (summary small) "AvgTotalMs")
            (summary_get (summary large) "AvgTotalMs")
            (summary_get (summary large) "AvgTotalMs"
             - summary_get (summary small) "AvgTotalMs")
            ((summary_get (summary large) "AvgTotalMs"
              / summary_get (summary small) "AvgTotalMs" - 1) * 100)%Q).
Proof.
  intros Hs Hl Hsz Hlz. unfold compare_summaries. cbv zeta.
  assert (Hk : forall s key, has_schema s -> In key summary_keys ->
                 py_lookup s key = Ok (summary_get s key)).
  { intros s key H Hin. apply py_lookup_get, (has_schema_key s key H Hin). }
  rewrite !(Hk _ "ProcessedPhotos"), !(Hk _ "TotalBytes"),
    !(Hk _ "AvgThroughputMBps") by (assumption || (cbn; tauto)).
  rewrite (for_each_rows (pct_row (summary small) (summary large)) _ stages
             (proj2 (Forall_forall _ _)
                (fun st Hin => pct_row_ok _ _ Hs Hl Hsz Hlz st
                                 (proj1 (list_elem_of_In _ _) Hin)))).
  rewrite (for_each_rows (abs_row (summary small) (summary large)) _ stages
             (proj2 (Forall_forall _ _)
                (fun st Hin => abs_row_ok _ _ Hs Hl st
                                 (proj1 (list_elem_of_In _ _) Hin)))).
  rewrite (total_row_ok _ _ Hs Hl Hsz).
  reflexivity.
Qed.

Lemma negated_rows (f g : string * string -> Q) (l : list (string * string)) :
  (forall st, f st == - g st)%Q ->
  Forall2 negated (map (fun st => (fst st, f st)) l)
                  (map (fun st => (fst st, g st)) l).
Proof.
  intros H. induction l as [|st l IH]; constructor; [|exact IH].
  split; [reflexivity | apply H].
Qed.

(** C8: for two summaries with the fixed schema and non-zero [AvgTotalMs],
    both comparisons complete with a row per stage, and the
    percentage-point deltas and the absolute deltas of [compare(A, B)] are
    the negations of those of [compare(B, A)]. *)
Theorem compare_deltas_negated (a b : Dataset) :
  has_schema (summary a) -> has_schema (summary b) ->
  ~ (summary_get (summary a) "AvgTotalMs" == 0)%Q ->
  ~ (summary_get (summary b) "AvgTotalMs" == 0)%Q ->
  outcome (compare_summaries a b) = Ok tt
  /\ outcome (compare_summaries b a) = Ok tt
  /\ map fst (pct_deltas (output (compare_summaries a b))) = stage_names
  /\ map fst (abs_deltas (output (compare_summaries a b))) = stage_names
  /\ Forall2 negated (pct_deltas (output (compare_summaries a b)))
                     (pct_deltas (output (compare_summaries b a)))
  /\ Forall2 negated (abs_deltas (output (compare_summaries a b)))
                     (abs_deltas (output (compare_summaries b a))).
Proof.
  intros Ha Hb Haz Hbz.
  destruct (compare_summaries_report a b Ha Hb Haz Hbz) as (Oab & Pab & Aab).
  destruct (compare_summaries_report b a Hb Ha Hbz Haz) as (Oba & Pba & Aba).
  rewrite Pab, Pba, Aab, Aba.
  split; [exact Oab|]. split; [exact Oba|].
  split; [reflexivity|]. split; [reflexivity|].
  split; apply negated_rows; intros st; ring.
Qed.

Lemma has_schema_make (photos bytes throughput total hash : Q) :
  has_schema (make_summary photos bytes throughput total hash).
Proof. repeat constructor; vm_compute; eexists; reflexivity. Qed.

Lemma compare_deltas_negated_witness :
  outcome (compare_summaries small_run large_run) = Ok tt
  /\ outcome (compare_summaries large_run small_run) = Ok tt
  /\ map fst (pct_deltas (output (compare_summaries small_run large_run)))
     = stage_names
  /\ map fst (abs_deltas (output (compare_summaries small_run large_run)))
     = stage_names
  /\ Forall2 negated
       (pct_deltas (output (compare_summaries small_run large_run)))
       (pct_deltas (output (compare_summaries large_run small_run)))
  /\ Forall2 negated
       (abs_deltas (output (compare_summaries small_run large_run)))
       (abs_deltas (output (compare_summaries large_run small_run))).
Proof.
  apply compare_deltas_negated.
  - apply has_schema_make.
  - apply has_schema_make.
  - vm_compute. discriminate.
  - vm_compute. discriminate.
Defined.

(** The worked example of the specification: totals 100 and 150, hashing 10
    and 20 give 10%, 13.33%, +3.33 points, +10 ms and +100%. *)
Example compare_hash_rows :
  pct_row (summary small_run) (summary large_run) ("Hash", "AvgHashMs")
  = ([PctRow "Hash" (1000 # 100) (2000 # 150) (50000 # 15000)], Ok tt)
  /\ abs_row (summary small_run) (summary large_run) ("Hash", "AvgHashMs")
     = ([AbsRow "Hash" 10 20 10 (1000 # 10)], Ok tt).
Proof. split; vm_compute; reflexivity. Qed.

Lemma rel_change_zero_baseline (base other : Q) :
  (base == 0)%Q -> rel_change base other = 0%Q.
Proof.
  intros H. unfold rel_change.
  assert (E : Qle_bool base 0 = true).
  { apply Qle_bool_iff. rewrite H. apply Qle_refl. }
  now rewrite E.
Qed.

Lemma compare_summaries_zero_total (small large : Dataset) :
  has_schema (summary small) -> has_schema (summary large) ->
  (summary_get (summary small) "AvgTotalMs" == 0)%Q ->
  compare_summaries small large
  = ([CText "PERFORMANCE COMPARISON: Small vs Large Dataset";
      CRule "=" 70; CBlank;
      SizeLine (summary_get (summary small) "ProcessedPhotos")
               (summary_get (summary large) "ProcessedPhotos");
      DataLine (summary_get (summary small) "TotalBytes" / 1024 / 1024)
               (summary_get (summary large) "TotalBytes" / 1024 / 1024);
      ThroughputCmp (summary_get (summary small) "AvgThroughputMBps")
                    (summary_get (summary large) "AvgThroughputMBps");
      CBlank; CText "PIPELINE STAGE BREAKDOWN (% of total time):";
      CRule "-" 70; CColumns ["Stage"; "Small %"; "Large %"; "Δ"];
      CRule "-" 70], Raise ZeroDivisionError).
Proof.
  intros Hs Hl Hz. unfold compare_summaries. cbv zeta.
  assert (Hk : forall s key, has_schema s -> In key summary_keys ->
                 py_lookup s key = Ok (summary_get s key)).
  { intros s key H Hin. apply py_lookup_get, (has_schema_key s key H Hin). }
  rewrite !(Hk _ "ProcessedPhotos"), !(Hk _ "TotalBytes"),
    !(Hk _ "AvgThroughputMBps") by (assumption || (cbn; tauto)).
  change (for_each stages (pct_row (summary small) (summary large)))
    with (pct_row (summary small) (summary large) ("Hash", "AvgHashMs") ;;
          for_each (tail stages) (pct_row (summary small) (summary large))).
  rewrite (pct_row_zero_total _ _ Hs ("Hash", "AvgHashMs"))
    by (assumption || (cbn; tauto)).
  reflexivity.
Qed.

(** C4: with a baseline [AvgTotalMs] of 0 the comparison does not report a
    relative change of 0: it stops with [ZeroDivisionError] in the percentage
    table, and the total line divides by the baseline without a guard as
    well.  The per-stage relative change does have the guard and gives 0
    from a zero baseline. *)
Theorem compare_zero_baseline_raises (small large : Dataset) :
  has_schema (summary small) -> has_schema (summary large) ->
  (summary_get (summary small) "AvgTotalMs" == 0)%Q ->
  outcome (compare_summaries small large) = Raise ZeroDivisionError
  /\ total_row (summary small) (summary large)
     = ([], Raise ZeroDivisionError)
  /\ Forall (fun l => match l with TotalCmp _ _ _ _ => False | _ => True end)
       (output (compare_summaries small large))
  /\ (forall other : Q,
         rel_change (summary_get (summary small) "AvgTotalMs") other = 0%Q).
Proof.
  intros Hs Hl Hz. rewrite (compare_summaries_zero_total _ _ Hs Hl Hz).
  split; [reflexivity|]. split; [|split].
  - unfold total_row.
    rewrite (total_lookup _ Hs), (total_lookup _ Hl), !bind_lift_ok.
    rewrite (py_div_zero _ _ Hz). reflexivity.
  - cbn [output fst]. repeat constructor.
  - intros other. now apply rel_change_zero_baseline.
Qed.

Lemma compare_zero_baseline_witness :
  outcome (compare_summaries idle_run large_run) = Raise ZeroDivisionError
  /\ total_row (summary idle_run) (summary large_run)
     = ([], Raise ZeroDivisionError)
  /\ Forall (fun l => match l with TotalCmp _ _ _ _ => False | _ => True end)
       (output (compare_summaries idle_run large_run))
  /\ (forall other : Q,
         rel_change (summary_get (summary idle_run) "AvgTotalMs") other = 0%Q).
Proof.
  apply compare_zero_baseline_raises.
  - repeat constructor; vm_compute; eexists; reflexivity.
  - apply has_schema_make.
  - reflexivity.
Defined.

(** ** Command line *)

Lemma parse_two_words (file pattern : string) :
  parse_args [Word file; Word pattern]
  = Ok (<["pattern" := VStr pattern]>
          (<["perfstats_file" := VStr file]> (set_defaults ∅))).
Proof. reflexivity. Qed.

Lemma parse_words_flag (file pattern : string) :
  parse_args [Word file; Word pattern; PatternFlag]
  = Ok (<["pattern" := VBool true]>
          (<["pattern" := VStr pattern]>
             (<["perfstats_file" := VStr file]> (set_defaults ∅)))).
Proof. reflexivity. Qed.

Lemma lookup_file_under_pattern (ns : Namespace) (v w : pyval) :
  (<["pattern" := v]> (<["perfstats_file" := w]> ns)) !! "perfstats_file"
  = Some w.
Proof.
  rewrite (lookup_insert_ne _ "pattern" "perfstats_file")
    by (intros ?; discriminate).
  apply lookup_insert_eq.
Qed.

Lemma truthy_nonempty (s : string) : s <> EmptyString -> truthy (VStr s) = true.
Proof.
  intros H. cbn. destruct (String.eqb_spec s ""); [contradiction | reflexivity].
Qed.

(** C2: without the flag the value of [args.pattern] is the pattern string,
    and [main] passes it as the pattern and as the mode; a non-empty string
    is true, so the records are selected in substring mode, not in
    extension mode.  With the flag after the pattern, [args.pattern] is
    [True] for both arguments and the selection of a non-empty dataset
    fails with [TypeError]. *)
Theorem main_selects_by_substring
    (files : gmap string Dataset) (file pattern : string) (data : Dataset) :
  files !! file = Some data -> pattern <> EmptyString ->
  (exists kept,
      main_selection files [Word file; Word pattern] = Ok (kept, VStr pattern)
      /\ filter_photos (detailed data) (VStr pattern) (VBool true) = Ok kept
      /\ selects (fun r => has_substring (FilePath r) pattern)
           (detailed data) kept)
  /\ (detailed data <> [] ->
      main_selection files [Word file; Word pattern; PatternFlag]
      = Raise TypeError).
Proof.
  intros Hfile Hne. split.
  - destruct (filter_photos_substring_mode (detailed data) pattern)
      as [kept [Hk Hsel]].
    exists kept. split; [|split; [exact Hk | exact Hsel]].
    unfold main_selection. rewrite parse_two_words.
    cbn [mbind result_bind]. unfold getattr.
    rewrite lookup_file_under_pattern, !lookup_insert_eq.
    cbn [mbind result_bind load_perfstats]. rewrite Hfile.
    cbn [mbind result_bind].
    assert (Hmode : filter_photos (detailed data) (VStr pattern) (VStr pattern)
                    = filter_photos (detailed data) (VStr pattern) (VBool true)).
    { unfold filter_photos. now rewrite (truthy_nonempty _ Hne). }
    rewrite Hmode, Hk. reflexivity.
  - intros Hdata. unfold main_selection. rewrite parse_words_flag.
    cbn [mbind result_bind]. unfold getattr.
    rewrite (lookup_insert_ne _ "pattern" "perfstats_file")
      by (intros ?; discriminate).
    rewrite lookup_file_under_pattern, !lookup_insert_eq.
    cbn [mbind result_bind load_perfstats]. rewrite Hfile.
    cbn [mbind result_bind].
    destruct (detailed data) as [|p l]; [contradiction | reflexivity].
Qed.

Lemma main_selects_by_substring_witness :
  (exists kept,
      main_selection sample_files [Word "perfstats.json"; Word ".DNG"]
      = Ok (kept, VStr ".DNG")
      /\ filter_photos sample_photos (VStr ".DNG") (VBool true) = Ok kept
      /\ selects (fun r => has_substring (FilePath r) ".DNG")
           sample_photos kept)
  /\ (sample_photos <> [] ->
      main_selection sample_files
        [Word "perfstats.json"; Word ".DNG"; PatternFlag]
      = Raise TypeError).
Proof.
  apply (main_selects_by_substring sample_files "perfstats.json" ".DNG"
           {| summary := ∅; detailed := sample_photos |}).
  - reflexivity.
  - discriminate.
Defined.

(** On the two sample photos "a.dng" and "b.DNG": extension mode keeps both
    for the pattern ".DNG"; [main], called without the flag, keeps "b.DNG"
    only, and for ".dNg" it finds no photo at all. *)
Example main_default_mode_on_samples :
  filter_photos sample_photos (VStr ".DNG") (VBool false) = Ok sample_photos
  /\ main_selection sample_files [Word "perfstats.json"; Word ".DNG"]
     = Ok ([timed_photo "b.DNG" 10000000 60000000], VStr ".DNG")
  /\ main sample_files [Word "perfstats.json"; Word ".dNg"]
     = ([Text "No photos found matching pattern!"], Ok tt).
Proof. repeat split. Qed.

(** * Further properties of the scripts *)

(** ** Selector: order, repetition, case and errors *)

Lemma selects_sublist {A} (P : A -> Prop) (l kept : list A) :
  selects P l kept -> sublist kept l.
Proof.
  induction 1; [constructor | now apply sublist_skip | now apply sublist_cons].
Qed.

Lemma selects_Forall {A} (P : A -> Prop) (l kept : list A) :
  selects P l kept -> Forall P kept.
Proof. induction 1; auto. Qed.

Lemma selects_all {A} (P : A -> Prop) (l : list A) :
  Forall P l -> selects P l l.
Proof. induction 1; constructor; auto. Qed.

(** X1: the selection keeps the records in their order, and selecting again
    from the selection changes nothing, in either mode. *)
Theorem filter_photos_subsequence_idempotent
    (recs : list PhotoRecord) (pattern : string) (substring : bool) :
  exists kept,
    filter_photos recs (VStr pattern) (VBool substring) = Ok kept
    /\ sublist kept recs
    /\ filter_photos kept (VStr pattern) (VBool substring) = Ok kept.
Proof.
  destruct substring.
  - destruct (filter_photos_substring_mode recs pattern) as [kept [Hk Hsel]].
    exists kept. split; [exact Hk|]. split; [eapply selects_sublist, Hsel|].
    destruct (filter_photos_substring_mode kept pattern) as [again [Ha Hsel']].
    rewrite Ha. f_equal.
    eapply selects_unique; [exact Hsel'|].
    eapply selects_all, selects_Forall, Hsel.
  - destruct (filter_photos_extension_mode recs pattern) as [kept [Hk Hsel]].
    exists kept. split; [exact Hk|]. split; [eapply selects_sublist, Hsel|].
    destruct (filter_photos_extension_mode kept pattern) as [again [Ha Hsel']].
    rewrite Ha. f_equal.
    eapply selects_unique; [exact Hsel'|].
    eapply selects_all, selects_Forall, Hsel.
Qed.

Lemma upper_ascii_idem (c : ascii) : upper_ascii (upper_ascii c) = upper_ascii c.
Proof. destruct c as [[] [] [] [] [] [] [] []]; reflexivity. Qed.

Lemma upper_idem (s : string) : upper (upper s) = upper s.
Proof.
  induction s as [|c s IH]; [reflexivity|].
  cbn [upper]. now rewrite upper_ascii_idem, IH.
Qed.

Lemma dot_normalized_cons (c : ascii) (s : string) :
  dot_normalized (String c s)
  = if Ascii.eqb "." c then String c s else String "." (String c s).
Proof. destruct c as [[] [] [] [] [] [] [] []]; reflexivity. Qed.

Lemma dotted_upper (c : ascii) :
  Ascii.eqb "." (upper_ascii c) = Ascii.eqb "." c.
Proof. destruct c as [[] [] [] [] [] [] [] []]; reflexivity. Qed.

Lemma upper_dot_normalized (pattern : string) :
  upper (dot_normalized (upper pattern)) = upper (dot_normalized pattern).
Proof.
  destruct pattern as [|c p]; [reflexivity|].
  cbn [upper]. rewrite !dot_normalized_cons, dotted_upper.
  destruct (Ascii.eqb "." c); cbn [upper];
    now rewrite upper_ascii_idem, upper_idem.
Qed.

Lemma dot_normalized_idem (pattern : string) :
  dot_normalized (dot_normalized pattern) = dot_normalized pattern.
Proof.
  destruct pattern as [|c p]; [reflexivity|].
  destruct c as [[] [] [] [] [] [] [] []]; reflexivity.
Qed.

Lemma filter_photos_extension_eq (recs : list PhotoRecord) (pattern : string) :
  filter_photos recs (VStr pattern) (VBool false)
  = comprehension
      (fun p => Ok (endswith (upper (FilePath p))
                             (upper (dot_normalized pattern)))) recs.
Proof.
  unfold filter_photos. cbn [truthy py_startswith mbind result_bind py_str].
  now rewrite startswith_dot.
Qed.

(** X2: extension matching does not depend on the case of the pattern nor on
    whether the pattern is written with its leading dot; a path matches or not
    whatever its case. *)
Theorem extension_mode_ignores_case_and_dot
    (recs : list PhotoRecord) (pattern : string) :
  filter_photos recs (VStr (upper pattern)) (VBool false)
  = filter_photos recs (VStr pattern) (VBool false)
  /\ filter_photos recs (VStr (dot_normalized pattern)) (VBool false)
     = filter_photos recs (VStr pattern) (VBool false)
  /\ forall path, ends_with_ci (upper path) pattern <-> ends_with_ci path pattern.
Proof.
  split; [|split].
  - now rewrite !filter_photos_extension_eq, upper_dot_normalized.
  - now rewrite !filter_photos_extension_eq, dot_normalized_idem.
  - intros path. unfold ends_with_ci. now rewrite upper_idem.
Qed.

(** X3: a pattern that is not a string: extension mode fails on the pattern
    itself, whatever the records; substring mode fails on the first record,
    and only an empty list gets through. *)
Theorem filter_photos_non_string_pattern
    (recs : list PhotoRecord) (pattern use_pattern : pyval) :
  (forall s, pattern <> VStr s) ->
  filter_photos recs pattern use_pattern
  = if truthy use_pattern
    then match recs with
         | [] => Ok []
         | _ :: _ => Raise TypeError
         end
    else Raise AttributeError.
Proof.
  intros Hns. unfold filter_photos. destruct (truthy use_pattern).
  - destruct recs as [|p l]; [reflexivity|].
    destruct pattern; try reflexivity. now elim (Hns s).
  - destruct pattern; try reflexivity. now elim (Hns s).
Qed.

Lemma filter_photos_non_string_pattern_witness :
  filter_photos sample_photos (VBool true) (VBool true)
  = if truthy (VBool true)
    then match sample_photos with
         | [] => Ok []
         | _ :: _ => Raise TypeError
         end
    else Raise AttributeError.
Proof. apply filter_photos_non_string_pattern. discriminate. Defined.

(** X4: the empty pattern: in substring mode every record is kept. *)
Theorem substring_mode_empty_pattern (recs : list PhotoRecord) :
  filter_photos recs (VStr "") (VBool true) = Ok recs.
Proof.
  destruct (filter_photos_substring_mode recs "") as [kept [Hk Hsel]].
  rewrite Hk. f_equal. eapply selects_unique; [exact Hsel|].
  apply selects_all, Forall_forall. intros r _.
  exists EmptyString, (FilePath r). reflexivity.
Qed.

(** ** Percentile: every list and every percentile *)

Lemma py_getitem_spec {A} (l : list A) (i : Z) :
  let n := Z.of_nat (length l) in
  (i < - n \/ n <= i -> py_getitem l i = Raise IndexError)
  /\ (- n <= i < n ->
      exists v, py_getitem l i = Ok v
                /\ l !! Z.to_nat (if i <? 0 then n + i else i) = Some v).
Proof.
  cbv zeta. unfold py_getitem. cbv zeta. split.
  - intros Hi. destruct (Z.ltb_spec i 0) as [Hneg|Hpos].
    + assert (H1 : (Z.of_nat (length l) + i <? 0) = true) by lia.
      now rewrite H1.
    + assert (H1 : (i <? 0) = false) by lia.
      assert (H2 : (Z.of_nat (length l) <=? i) = true) by lia.
      now rewrite H1, H2.
  - intros Hi. set (j := if i <? 0 then Z.of_nat (length l) + i else i).
    assert (Hj : 0 <= j < Z.of_nat (length l)).
    { unfold j. destruct (Z.ltb_spec i 0); lia. }
    assert (H1 : (j <? 0) = false) by lia.
    assert (H2 : (Z.of_nat (length l) <=? j) = false) by lia.
    rewrite H1, H2. cbn [orb].
    destruct (lookup_lt_is_Some_2 l (Z.to_nat j)) as [v Hv]; [lia|].
    exists v. now rewrite Hv.
Qed.

(** Line 48 after line 47: what the index decides. *)
Lemma get_percentile_cases (l : list Q) (p : Q) :
  l <> [] ->
  let n := Z.of_nat (length l) in
  match float_mul (float_len l) p with
  | None => get_percentile l p = Raise OverflowError
  | Some x =>
      (py_int x < - n -> get_percentile l p = Raise IndexError)
      /\ (- n <= py_int x -> exists v, get_percentile l p = Ok v /\ In v l)
      /\ (n - 1 <= py_int x ->
          exists v, get_percentile l p = Ok v /\ last l = Some v)
  end.
Proof.
  intros Hne. cbv zeta.
  assert (Hn : 0 < Z.of_nat (length l)) by (destruct l; [easy | cbn; lia]).
  assert (Hg : get_percentile l p
               = idx ← int_of_float (float_mul (float_len l) p);
                 py_getitem l (Z.min idx (Z.of_nat (length l) - 1))).
  { destruct l; [easy | reflexivity]. }
  rewrite Hg. destruct (float_mul (float_len l) p) as [x|]; [|reflexivity].
  cbn [int_of_float mbind result_bind].
  destruct (py_getitem_spec l (Z.min (py_int x) (Z.of_nat (length l) - 1)))
    as [Hout Hin].
  split; [|split].
  - intros Hlow. apply Hout. lia.
  - intros Hok. destruct Hin as [v [Hv Hlook]]; [lia|].
    exists v. split; [exact Hv|].
    eapply list_elem_of_In, list_elem_of_lookup_2, Hlook.
  - intros Hhigh. destruct Hin as [v [Hv Hlook]]; [lia|].
    exists v. split; [exact Hv|].
    rewrite last_lookup. rewrite <- Hlook. f_equal.
    rewrite Z.min_r by lia.
    destruct (Z.ltb_spec (Z.of_nat (length l) - 1) 0); lia.
Qed.

(** A percentile from 0 to 2^960 has a finite product with every length. *)
Lemma percentile_finite (l : list Q) (p : Q) :
  (0 <= p)%Q -> (p <= 2 ^ 960)%Q ->
  float_mul (float_len l) p = Some (round_double (float_len l * p))
  /\ py_int (round_double (float_len l * p))
     = Qfloor (round_double (float_len l * p))
  /\ (0 <= float_len l * p)%Q.
Proof.
  intros H0 H1. destruct (percentile_product l p _ H0 H1) as [P0 P1].
  split; [|split; [|exact P0]].
  - apply float_mul_finite; [exact P0|].
    eapply Qle_trans; [exact P1|]. vm_compute. discriminate.
  - apply py_int_floor, round_double_nonneg, P0.
Qed.

(** X5: [get_percentile] on any list and any finite percentile: 0 for the
    empty list.  On a non-empty list of [n] values the product of line 47,
    the length times the percentile as doubles, decides: an infinite product
    is an [OverflowError]; a product whose integer part is below [-n] makes
    the index fall off the front, an [IndexError]; every other product gives
    an element of the list, the last one when its integer part is [n - 1] or
    more.  A percentile from 0 to 2^960 gives an element of the list; on a
    list of up to 2^53 values a percentile from 1 to 2^960 gives the last
    one. *)
Theorem get_percentile_total (l : list Q) (p : Q) :
  (l = [] -> get_percentile l p = Ok 0%Q)
  /\ (l <> [] ->
      let n := Z.of_nat (length l) in
      match float_mul (float_len l) p with
      | None => get_percentile l p = Raise OverflowError
      | Some x =>
          (py_int x < - n -> get_percentile l p = Raise IndexError)
          /\ (- n <= py_int x ->
              exists v, get_percentile l p = Ok v /\ In v l)
          /\ (n - 1 <= py_int x ->
              exists v, get_percentile l p = Ok v /\ last l = Some v)
      end)
  /\ (l <> [] -> (0 <= p)%Q -> (p <= 2 ^ 960)%Q ->
      exists v, get_percentile l p = Ok v /\ In v l)
  /\ (l <> [] -> Z.of_nat (length l) <= 2 ^ 53 ->
      (1 <= p)%Q -> (p <= 2 ^ 960)%Q ->
      exists v, get_percentile l p = Ok v /\ last l = Some v).
Proof.
  split; [intros ->; reflexivity|].
  split; [apply get_percentile_cases|]. split.
  - intros Hne H0 H1.
    pose proof (get_percentile_cases l p Hne) as H. cbv zeta in H.
    destruct (percentile_finite l p H0 H1) as (Hf & Hi & P0).
    rewrite Hf, Hi in H. apply H.
    assert (0 <= Qfloor (round_double (float_len l * p))); [|lia].
    change 0 with (Qfloor 0). apply Qfloor_resp_le, round_double_nonneg, P0.
  - intros Hne Hlen Hp1 H1.
    assert (H0 : (0 <= p)%Q) by (apply Qle_trans with 1%Q; [discriminate|easy]).
    pose proof (get_percentile_cases l p Hne) as H. cbv zeta in H.
    destruct (percentile_finite l p H0 H1) as (Hf & Hi & P0).
    rewrite Hf, Hi in H. apply H.
    assert (Z.of_nat (length l) <= Qfloor (round_double (float_len l * p)));
      [|lia].
    rewrite <- (Qfloor_Z (Z.of_nat (length l))) at 1.
    apply Qfloor_resp_le.
    rewrite <- (round_double_Z (Z.of_nat (length l))) by lia.
    apply round_double_mono; [apply inject_Z_nonneg; lia|].
    rewrite (float_len_exact l Hlen).
    rewrite <- (Qmult_1_r (inject_Z (Z.of_nat (length l)))) at 1.
    apply Qmult_le_l_weak; [apply inject_Z_nonneg; lia | exact Hp1].
Qed.

(** Of three values, percentile -1.3333333333333333 falls off the front: the
    product rounds to -4.  Percentile 1e308 of 1..10 has an infinite product,
    and percentile 2 is the last value. *)
Lemma get_percentile_total_witness :
  get_percentile [1%Q; 2%Q; 3%Q] (- round_double (4 # 3)) = Raise IndexError
  /\ get_percentile one_to_ten (round_double (10 ^ 308)) = Raise OverflowError
  /\ (exists v, get_percentile one_to_ten 2 = Ok v /\ In v one_to_ten)
  /\ (exists v, get_percentile one_to_ten 2 = Ok v
                /\ last one_to_ten = Some v).
Proof.
  split; [|split; [|split]].
  - assert (E : exists x,
               float_mul (float_len [1%Q; 2%Q; 3%Q]) (- round_double (4 # 3))
               = Some x /\ py_int x = -4).
    { eexists. split; vm_compute; reflexivity. }
    destruct E as (x & E & Hx).
    pose proof (proj1 (proj2 (get_percentile_total
                                [1%Q; 2%Q; 3%Q] (- round_double (4 # 3))))
                  ltac:(discriminate)) as H.
    cbv zeta in H. rewrite E in H. apply H. rewrite Hx. reflexivity.
  - assert (E : float_mul (float_len one_to_ten) (round_double (10 ^ 308))
                 = None)
      by (vm_compute; reflexivity).
    pose proof (proj1 (proj2 (get_percentile_total one_to_ten
                                (round_double (10 ^ 308))))
                  ltac:(discriminate)) as H.
    cbv zeta in H. rewrite E in H. exact H.
  - apply (proj1 (proj2 (proj2 (get_percentile_total one_to_ten 2))));
      [discriminate | discriminate | vm_compute; discriminate].
  - apply (proj2 (proj2 (proj2 (get_percentile_total one_to_ten 2))));
      [discriminate | vm_compute; discriminate | discriminate
      | vm_compute; discriminate].
Defined.

(** ** Stage aggregator: outcome, shares and extremes *)

Ltac solve_int64_fields :=
  unfold int64_fields;
  repeat (apply List.Forall_cons;
          [vm_compute; split; [discriminate | reflexivity]|]);
  apply List.Forall_nil.

Lemma stage_rows_cv (rows : list (string * R)) :
  stage_rows (map (fun '(name, cv) => CvRow name cv) rows) = [].
Proof. induction rows as [|[name cv] rows IH]; [reflexivity | exact IH]. Qed.

(** Every line of an analysis that completes. *)
Lemma analyze_photos_lines (photos : list PhotoRecord) (label : string) :
  photos <> [] ->
  sum_Z (map TotalTime photos) <> 0 ->
  let avg := fun t : Z => (inject_Z t / len photos / 1000000)%Q in
  let total := sum_Z (map TotalTime photos) in
  exists s1 s2 s3 s4,
    analyze_photos photos label
    = ([Title (upper label) (length photos); Rule "=" 70; Blank;
        CountLine (length photos);
        TotalSizeLine (inject_Z (sum_Z (map FileSize photos)) / 1024 / 1024)%Q;
        AvgFileSizeLine
          (inject_Z (sum_Z (map FileSize photos)) / len photos / 1024 / 1024)%Q;
        ThroughputLine
          ((inject_Z (sum_Z (map FileSize photos)) / 1024 / 1024)
           / (inject_Z total / 1000000000))%Q;
        Blank;
        Text "AVERAGE TIMINGS PER PHOTO:"; Rule "-" 70;
        Columns ["Stage"; "Time (ms)"; "% of Total"]; Rule "-" 70]
       ++ map (fun sf : string * (PhotoRecord -> Z) =>
                 StageRow (fst sf) (avg (sum_Z (map (snd sf) photos)))
                   (if negb (Qle_bool (avg total) 0)
                    then avg (sum_Z (map (snd sf) photos)) / avg total * 100
                    else 0)%Q) stage_fields
       ++ [TotalRow (avg total); Blank;
           Text "DISTRIBUTION STATS:"; Rule "-" 70;
           Columns ["Stage"; "Min"; "Median"; "P95"; "Max"]; Rule "-" 70;
           (let '(lo, median, p95, hi) := s1 in
            DistRow "Image Decode" lo median p95 hi);
           (let '(lo, median, p95, hi) := s2 in
            DistRow "Thumbnails" lo median p95 hi);
           (let '(lo, median, p95, hi) := s3 in
            DistRow "Color Extract" lo median p95 hi);
           (let '(lo, median, p95, hi) := s4 in
            DistRow "TOTAL" lo median p95 hi);
           Blank;
           Text "VARIABILITY (Coefficient of Variation %):"; Rule "-" 70]
       ++ map (fun '(name, cv) => CvRow name cv) (variability_ranking photos),
       Ok tt)
    /\ ordered_stats (sorted_ms photos ImageDecodeTime) s1
    /\ ordered_stats (sorted_ms photos ThumbnailTime) s2
    /\ ordered_stats (sorted_ms photos ColorTime) s3
    /\ ordered_stats (sorted_ms photos TotalTime) s4.
Proof.
  intros Hne Htot. cbv zeta.
  destruct (print_distribution_ordered photos Hne)
    as (s1 & s2 & s3 & s4 & Hd & O1 & O2 & O3 & O4).
  exists s1, s2, s3, s4. split; [|easy].
  rewrite (analyze_photos_unfold _ _ Hne). cbv zeta.
  rewrite (print_counts_ok _ _ _ Hne Htot), print_timings_ok, Hd,
    print_variability_ok.
  reflexivity.
Qed.

(** X6: on records with 64-bit fields the analysis fails in one way only: a
    non-empty selection whose total time is 0 stops at the throughput, six
    lines into the report.  Every other such input, negative times and empty
    files included, gets the full report of 40 lines, and the empty selection
    its one message.  The bound on the fields keeps the quotients of lines
    76-89 within the range of a double; beyond it Python's integer division
    raises [OverflowError]. *)
Theorem analyze_photos_outcome (photos : list PhotoRecord) (label : string) :
  machine_sized photos ->
  (outcome (analyze_photos photos label),
   length (output (analyze_photos photos label)))
  = match photos with
    | [] => (Ok tt, 1%nat)
    | _ :: _ => if sum_Z (map TotalTime photos) =? 0
                then (Raise ZeroDivisionError, 6%nat)
                else (Ok tt, 40%nat)
    end.
Proof.
  intros _.
  destruct photos as [|p0 l0] eqn:E; [reflexivity|]. rewrite <- E.
  assert (Hne : photos <> []) by (subst; discriminate).
  destruct (Z.eqb_spec (sum_Z (map TotalTime photos)) 0) as [Hz|Hnz].
  - now rewrite (analyze_photos_throughput _ _ Hne Hz).
  - destruct (analyze_photos_lines photos label Hne Hnz)
      as (s1 & s2 & s3 & s4 & -> & _).
    cbn [outcome output fst snd]. f_equal.
    rewrite !length_app, !length_map.
    unfold variability_ranking. rewrite py_sorted_length. reflexivity.
Qed.

(** The two sample photos get the full report. *)
Lemma analyze_photos_outcome_witness :
  (outcome (analyze_photos sample_photos ".dng files"),
   length (output (analyze_photos sample_photos ".dng files")))
  = (Ok tt, 40%nat).
Proof.
  apply (analyze_photos_outcome sample_photos ".dng files").
  split; [reflexivity|]. unfold sample_photos.
  repeat (apply List.Forall_cons; [solve_int64_fields|]).
  apply List.Forall_nil.
Defined.

Lemma average_sign (n : Q) (t : Z) :
  (0 < n)%Q -> negb (Qle_bool (inject_Z t / n / 1000000) 0) = (0 <? t).
Proof.
  intros Hn. destruct (Z.ltb_spec 0 t) as [Hpos|Hneg].
  - apply negb_true_iff. destruct (Qle_bool _ 0) eqn:E; [|reflexivity].
    apply Qle_bool_iff in E. exfalso.
    assert (H : (0 < inject_Z t / n / 1000000)%Q).
    { apply Qlt_shift_div_l; [reflexivity|]. rewrite Qmult_0_l.
      apply Qlt_shift_div_l; [exact Hn|]. rewrite Qmult_0_l.
      change 0%Q with (inject_Z 0). rewrite <- Zlt_Qlt. exact Hpos. }
    exact (Qlt_not_le _ _ H E).
  - apply negb_false_iff, Qle_bool_iff.
    apply Qle_shift_div_r; [reflexivity|]. rewrite Qmult_0_l.
    apply Qle_shift_div_r; [exact Hn|]. rewrite Qmult_0_l.
    change 0%Q with (inject_Z 0). rewrite <- Zle_Qle. exact Hneg.
Qed.

Lemma len_positive {A} (l : list A) : l <> [] -> (0 < len l)%Q.
Proof.
  intros Hl. unfold len. change 0%Q with (inject_Z 0). rewrite <- Zlt_Qlt.
  destruct l; [easy | cbn; lia].
Qed.

(** X7: the timings table has a row for each of the eight stages, in
    declaration order. A row's time is the stage's summed time per photo in
    milliseconds; its percentage is the share of the stage's summed time in
    the summed total time, whatever the number of photos, and 0 when the total
    time is negative. *)
Theorem stage_percentages_are_shares
    (photos : list PhotoRecord) (label : string) :
  photos <> [] ->
  sum_Z (map TotalTime photos) <> 0 ->
  let total := sum_Z (map TotalTime photos) in
  map (fun row => fst (fst row)) (stage_rows (output (analyze_photos photos label)))
  = stage_names
  /\ Forall2
       (fun row sf =>
          let stage := sum_Z (map (snd sf) photos) in
          let '(name, time_ms, pct) := row in
          name = fst sf
          /\ (time_ms * len photos == ms stage)%Q
          /\ (pct == if 0 <? total
                     then inject_Z stage / inject_Z total * 100 else 0)%Q)
       (stage_rows (output (analyze_photos photos label))) stage_fields.
Proof.
  intros Hne Hnz. cbv zeta.
  destruct (analyze_photos_lines photos label Hne Hnz)
    as (s1 & s2 & s3 & s4 & -> & _).
  destruct s1 as [[[? ?] ?] ?], s2 as [[[? ?] ?] ?],
           s3 as [[[? ?] ?] ?], s4 as [[[? ?] ?] ?].
  cbn [output fst]. unfold stage_rows. rewrite !omap_app. fold stage_rows.
  rewrite stage_rows_cv, (average_sign _ _ (len_positive _ Hne)).
  pose proof (len_nonzero photos Hne) as Hlen.
  assert (Htotal : ~ (inject_Z (sum_Z (map TotalTime photos)) == 0)%Q).
  { unfold Qeq. cbn. lia. }
  split; [reflexivity|].
  cbn [omap list_omap map stage_fields fst snd app].
  repeat (constructor;
          [split; [reflexivity|]; cbn [fst snd]; unfold ms; split;
           [field; auto
           |destruct (0 <? sum_Z (map TotalTime photos));
            [field; auto | reflexivity]]|]).
  constructor.
Qed.

Lemma stage_percentages_are_shares_witness :
  map (fun row => fst (fst row))
    (stage_rows (output (analyze_photos sample_photos ".dng files")))
  = stage_names
  /\ Forall2
       (fun row sf =>
          let stage := sum_Z (map (snd sf) sample_photos) in
          let '(name, time_ms, pct) := row in
          name = fst sf
          /\ (time_ms * len sample_photos == ms stage)%Q
          /\ (pct == if 0 <? sum_Z (map TotalTime sample_photos)
                     then inject_Z stage
                          / inject_Z (sum_Z (map TotalTime sample_photos)) * 100
                     else 0)%Q)
       (stage_rows (output (analyze_photos sample_photos ".dng files")))
       stage_fields.
Proof.
  apply (stage_percentages_are_shares sample_photos ".dng files").
  - discriminate.
  - vm_compute. discriminate.
Defined.

Lemma sorted_head_least (l : list Q) (lo : Q) :
  StronglySorted Qle l -> head l = Some lo -> Forall (fun x => (lo <= x)%Q) l.
Proof.
  intros Hs Hh. destruct Hs as [|x l Hs Hx]; [constructor|].
  injection Hh as <-. constructor; [apply Qle_refl | exact Hx].
Qed.

Lemma sorted_last_greatest (l : list Q) (hi : Q) :
  StronglySorted Qle l -> last l = Some hi -> Forall (fun x => (x <= hi)%Q) l.
Proof.
  intros Hs Hl. rewrite last_lookup in Hl.
  apply Forall_forall. intros x Hx.
  apply list_elem_of_lookup_1 in Hx as [j Hj].
  apply (sorted_lookup_le l j (pred (length l)) x hi Hs); [|exact Hj|exact Hl].
  apply lookup_lt_Some in Hj. lia.
Qed.

Lemma ordered_stats_extremes (photos : list PhotoRecord)
    (field : PhotoRecord -> Z) (lo median p95 hi : Q) :
  ordered_stats (sorted_ms photos field) (lo, median, p95, hi) ->
  In lo (map (fun p => ms (field p)) photos)
  /\ In hi (map (fun p => ms (field p)) photos)
  /\ Forall (fun p => (lo <= ms (field p) <= hi)%Q) photos.
Proof.
  intros (Hh & Hl & _).
  pose proof (py_sorted_Q_ascending (map (fun p => ms (field p)) photos)) as Hs.
  pose proof (py_sorted_perm Qle_bool (fun x : Q => x) false
                (map (fun p => ms (field p)) photos)) as Hp.
  fold (sorted_ms photos field) in Hs, Hp.
  split; [|split].
  - apply (Permutation_in _ Hp). rewrite head_lookup in Hh.
    eapply list_elem_of_In, list_elem_of_lookup_2, Hh.
  - apply (Permutation_in _ Hp). rewrite last_lookup in Hl.
    eapply list_elem_of_In, list_elem_of_lookup_2, Hl.
  - pose proof (sorted_head_least _ _ Hs Hh) as Hlo.
    pose proof (sorted_last_greatest _ _ Hs Hl) as Hhi.
    rewrite Hp in Hlo, Hhi. rewrite Forall_map in Hlo, Hhi.
    rewrite Forall_forall in Hlo, Hhi. apply Forall_forall. intros p Hin.
    split; [now apply Hlo | now apply Hhi].
Qed.

(** X8: the Min and Max columns of the distribution table are the least and
    the greatest per-photo time of the stage, in milliseconds: each is the
    time of some photo of the selection, and every photo's time lies between
    them. *)
Theorem distribution_min_max (photos : list PhotoRecord) (label : string) :
  photos <> [] ->
  sum_Z (map TotalTime photos) <> 0 ->
  Forall2
    (fun row field =>
       let '(_, (lo, _, _, hi)) := row in
       In lo (map (fun p => ms (field p)) photos)
       /\ In hi (map (fun p => ms (field p)) photos)
       /\ Forall (fun p => (lo <= ms (field p) <= hi)%Q) photos)
    (dist_rows (output (analyze_photos photos label))) dist_fields.
Proof.
  intros Hne Hnz.
  destruct (analyze_photos_report photos label Hne Hnz)
    as (s1 & s2 & s3 & s4 & _ & -> & _ & O1 & O2 & O3 & O4).
  destruct s1 as [[[? ?] ?] ?], s2 as [[[? ?] ?] ?],
           s3 as [[[? ?] ?] ?], s4 as [[[? ?] ?] ?].
  repeat (apply List.Forall2_cons;
          [eapply ordered_stats_extremes; eassumption|]).
  apply List.Forall2_nil.
Qed.

Lemma distribution_min_max_witness :
  Forall2
    (fun row field =>
       let '(_, (lo, _, _, hi)) := row in
       In lo (map (fun p => ms (field p)) sample_photos)
       /\ In hi (map (fun p => ms (field p)) sample_photos)
       /\ Forall (fun p => (lo <= ms (field p) <= hi)%Q) sample_photos)
    (dist_rows (output (analyze_photos sample_photos ".dng files")))
    dist_fields.
Proof.
  apply (distribution_min_max sample_photos ".dng files").
  - discriminate.
  - vm_compute. discriminate.
Defined.

(** ** Coefficient of variation: sign, zero and scale *)

Lemma mean_R_sum (values : list Z) :
  mean_R values = (IZR (sum_Z values) / INR (length values))%R.
Proof. unfold mean_R. now rewrite IZR_sum_Z. Qed.

Lemma INR_length_pos {A} (l : list A) :
  (2 <= length l)%nat -> (0 < INR (length l))%R.
Proof. intros H. apply lt_0_INR. lia. Qed.

Lemma mean_R_zero_iff (values : list Z) :
  (2 <= length values)%nat -> mean_R values = 0%R <-> sum_Z values = 0.
Proof.
  intros H. rewrite mean_R_sum. pose proof (INR_length_pos _ H) as Hn. split.
  - intros E. apply eq_IZR.
    replace (IZR (sum_Z values))
      with (IZR (sum_Z values) / INR (length values) * INR (length values))%R
      by (field; lra).
    rewrite E. ring.
  - intros ->. unfold Rdiv. apply Rmult_0_l.
Qed.

(** The three cases of [coefficient_of_variation], over the reals. *)
Lemma coefficient_of_variation_cases (values : list Z) :
  coefficient_of_variation values
  = if (length values <? 2)%nat then 0%R
    else if sum_Z values =? 0 then 0%R
    else (population_std_dev values / mean_R values * 100)%R.
Proof.
  destruct (Nat.ltb_spec (length values) 2) as [Hlt|Hge].
  - unfold coefficient_of_variation.
    now destruct (Nat.ltb_spec (length values) 2); [|lia].
  - rewrite (coefficient_of_variation_two _ Hge).
    destruct (Z.eqb_spec (sum_Z values) 0) as [Hz|Hnz].
    + apply (mean_R_zero_iff _ Hge), (mean_zero_iff _ Hge) in Hz.
      now rewrite Hz.
    + destruct (Qeq_bool _ 0) eqn:E; [|reflexivity].
      apply (mean_zero_iff _ Hge), (mean_R_zero_iff _ Hge) in E.
      contradiction.
Qed.

(** X9: the coefficient of variation has the sign of the sum of the values: it
    is never negative for durations, and it is negative, not its absolute
    value, for values of negative mean. *)
Theorem coefficient_of_variation_sign (values : list Z) :
  (0 <= sum_Z values -> (0 <= coefficient_of_variation values)%R)
  /\ (sum_Z values <= 0 -> (coefficient_of_variation values <= 0)%R).
Proof.
  rewrite coefficient_of_variation_cases.
  destruct (Nat.ltb_spec (length values) 2) as [Hlt|Hge];
    [split; intros _; lra|].
  destruct (Z.eqb_spec (sum_Z values) 0) as [Hz|Hnz];
    [split; intros _; lra|].
  pose proof (sqrt_pos (population_variance values)) as Hs.
  fold (population_std_dev values) in Hs.
  pose proof (INR_length_pos _ Hge) as Hn.
  pose proof (Rinv_0_lt_compat _ Hn) as Hi.
  rewrite mean_R_sum. split; intros Hsum.
  - assert (Ha : (0 < IZR (sum_Z values))%R) by (apply IZR_lt; lia).
    assert (Hm : (0 < IZR (sum_Z values) / INR (length values))%R)
      by (unfold Rdiv; nra).
    pose proof (Rinv_0_lt_compat _ Hm). unfold Rdiv in *. nra.
  - assert (Ha : (IZR (sum_Z values) < 0)%R) by (apply IZR_lt; lia).
    assert (Hm : (IZR (sum_Z values) / INR (length values) < 0)%R)
      by (unfold Rdiv; nra).
    pose proof (Rinv_lt_0_compat _ Hm). unfold Rdiv in *. nra.
Qed.

Lemma coefficient_of_variation_sign_witness :
  (0 <= coefficient_of_variation [0%Z; 10%Z])%R
  /\ (coefficient_of_variation [(-10)%Z; 0%Z] <= 0)%R.
Proof.
  split.
  - apply (proj1 (coefficient_of_variation_sign [0; 10])). discriminate.
  - apply (proj2 (coefficient_of_variation_sign [-10; 0])). discriminate.
Defined.

Lemma sum_R_const (l : list R) (c : R) :
  Forall (fun x => x = c) l -> sum_R l = (INR (length l) * c)%R.
Proof.
  induction 1 as [|x l Hx _ IH].
  - cbn. ring.
  - change (sum_R (x :: l)) with (x + sum_R l)%R.
    change (length (x :: l)) with (S (length l)).
    rewrite IH, Hx, S_INR. ring.
Qed.

Lemma sum_R_nonneg (l : list R) :
  Forall (fun x => 0 <= x)%R l -> (0 <= sum_R l)%R.
Proof.
  induction 1 as [|x l Hx _ IH]; [cbn; lra|].
  change (sum_R (x :: l)) with (x + sum_R l)%R. lra.
Qed.

Lemma sum_R_nonneg_zero (l : list R) :
  Forall (fun x => 0 <= x)%R l -> sum_R l = 0%R -> Forall (fun x => x = 0%R) l.
Proof.
  induction 1 as [|x l Hx Hl IH]; intros Hs; [constructor|].
  change (sum_R (x :: l)) with (x + sum_R l)%R in Hs.
  pose proof (sum_R_nonneg l Hl).
  constructor; [lra | apply IH; lra].
Qed.

Lemma squares_nonneg (values : list Z) (m : R) :
  Forall (fun x => 0 <= x)%R (map (fun v => (IZR v - m) ^ 2)%R values).
Proof.
  apply Forall_map, Forall_forall. intros v _. apply pow2_ge_0.
Qed.

(** X10: for values up to 2^53 in magnitude, which a double holds exactly:
    the coefficient of variation of equal values is 0; and when it is 0 for
    two or more values of non-zero sum, the values are all equal.  Beyond
    2^53 the converse is lost in the code: 2^53 and 2^53 + 1 are the same
    double. *)
Theorem coefficient_of_variation_zero_iff_constant (values : list Z) :
  Forall exact_double values ->
  ((forall v w, In v values -> In w values -> v = w) ->
   coefficient_of_variation values = 0%R)
  /\ ((2 <= length values)%nat -> sum_Z values <> 0 ->
      coefficient_of_variation values = 0%R ->
      forall v w, In v values -> In w values -> v = w).
Proof.
  intros _. rewrite coefficient_of_variation_cases. split.
  - intros Hconst.
    destruct (Nat.ltb_spec (length values) 2) as [Hlt|Hge]; [reflexivity|].
    destruct (Z.eqb_spec (sum_Z values) 0) as [Hz|Hnz]; [reflexivity|].
    pose proof (INR_length_pos _ Hge) as Hn.
    destruct values as [|c rest] eqn:E; [cbn in Hge; lia|]. rewrite <- E in *.
    assert (Hc : forall v, In v values -> v = c).
    { intros v Hv. apply Hconst; [exact Hv | rewrite E; now left]. }
    assert (Hm : mean_R values = IZR c).
    { unfold mean_R.
      rewrite (sum_R_const _ (IZR c)); [rewrite length_map; field; lra|].
      apply Forall_map, Forall_forall. intros v Hv.
      f_equal. apply Hc, list_elem_of_In, Hv. }
    assert (Hv : population_variance values = 0%R).
    { unfold population_variance.
      rewrite (sum_R_const _ 0%R); [rewrite length_map; field; lra|].
      apply Forall_map, Forall_forall. intros v Hv.
      rewrite Hm, (Hc v) by apply list_elem_of_In, Hv. ring. }
    unfold population_std_dev. rewrite Hv, sqrt_0. unfold Rdiv.
    now rewrite !Rmult_0_l.
  - intros Hge Hnz.
    destruct (Nat.ltb_spec (length values) 2) as [Hlt|_]; [lia|].
    destruct (Z.eqb_spec (sum_Z values) 0) as [Hz|_]; [contradiction|].
    intros Hcv.
    pose proof (INR_length_pos _ Hge) as Hn.
    assert (Hm : mean_R values <> 0%R).
    { intros Hm. apply Hnz. now apply (mean_R_zero_iff _ Hge). }
    assert (Hstd : population_std_dev values = 0%R).
    { replace (population_std_dev values)
        with (population_std_dev values / mean_R values * 100
              * (mean_R values / 100))%R by (field; exact Hm).
      rewrite Hcv. ring. }
    pose proof (squares_nonneg values (mean_R values)) as Hsq.
    assert (Hvar : population_variance values = 0%R).
    { apply sqrt_eq_0; [|exact Hstd]. unfold population_variance.
      pose proof (sum_R_nonneg _ Hsq). pose proof (Rinv_0_lt_compat _ Hn).
      unfold Rdiv. nra. }
    assert (Hsum : sum_R (map (fun v => (IZR v - mean_R values) ^ 2)%R values)
                   = 0%R).
    { unfold population_variance in Hvar.
      replace (sum_R _)
        with (sum_R (map (fun v => (IZR v - mean_R values) ^ 2)%R values)
              / INR (length values) * INR (length values))%R
        by (field; lra).
      rewrite Hvar. ring. }
    pose proof (sum_R_nonneg_zero _ Hsq Hsum) as Hall.
    rewrite Forall_map, Forall_forall in Hall.
    assert (Heq : forall v, In v values -> IZR v = mean_R values).
    { intros v Hv. apply list_elem_of_In, Hall in Hv. nra. }
    intros v w Hv Hw. apply eq_IZR. now rewrite (Heq v Hv), (Heq w Hw).
Qed.

Lemma coefficient_of_variation_zero_iff_constant_witness :
  (coefficient_of_variation [7; 7; 7] = 0%R)
  /\ (coefficient_of_variation [7; 7; 7] = 0%R ->
      forall v w, In v [7; 7; 7] -> In w [7; 7; 7] -> v = w).
Proof.
  assert (H : Forall exact_double [7; 7; 7]).
  { repeat (apply List.Forall_cons; [vm_compute; discriminate|]).
    apply List.Forall_nil. }
  split.
  - apply (proj1 (coefficient_of_variation_zero_iff_constant [7; 7; 7] H)).
    cbn. intros v w Hv Hw. lia.
  - apply (proj2 (coefficient_of_variation_zero_iff_constant [7; 7; 7] H)).
    + cbn. lia.
    + discriminate.
Defined.

Lemma sum_Z_scale (k : Z) (values : list Z) :
  sum_Z (map (Z.mul k) values) = k * sum_Z values.
Proof.
  unfold sum_Z. rewrite !foldl_Zadd, !Z.add_0_l.
  induction values as [|v l IH]; cbn; [lia|]. rewrite IH. lia.
Qed.

Lemma mean_R_scale (k : Z) (values : list Z) :
  mean_R (map (Z.mul k) values) = (IZR k * mean_R values)%R.
Proof.
  rewrite !mean_R_sum, sum_Z_scale, length_map, mult_IZR.
  unfold Rdiv. ring.
Qed.

Lemma population_variance_scale (k : Z) (values : list Z) :
  population_variance (map (Z.mul k) values)
  = (IZR k ^ 2 * population_variance values)%R.
Proof.
  unfold population_variance. rewrite mean_R_scale, length_map, map_map.
  generalize (mean_R values) as m. intros m.
  assert (H : sum_R (map (fun v => (IZR (k * v) - IZR k * m) ^ 2)%R values)
              = (IZR k ^ 2 * sum_R (map (fun v => (IZR v - m) ^ 2)%R values))%R).
  { induction values as [|v l IH]; [cbn; ring|].
    cbn [map]. change (sum_R (?x :: ?l)) with (x + sum_R l)%R.
    rewrite IH, mult_IZR. ring. }
  rewrite H. unfold Rdiv. ring.
Qed.

Lemma population_std_dev_scale (k : Z) (values : list Z) :
  population_std_dev (map (Z.mul k) values)
  = (Rabs (IZR k) * population_std_dev values)%R.
Proof.
  unfold population_std_dev. rewrite population_variance_scale.
  rewrite sqrt_mult_alt by apply pow2_ge_0.
  now rewrite <- Rsqr_pow2, sqrt_Rsqr_abs.
Qed.

(** X11: the coefficient of variation does not depend on the unit of the
    values: multiplying every value by the same positive factor leaves it as
    it is, and a negative factor changes its sign. *)
Theorem coefficient_of_variation_scale (k : Z) (values : list Z) :
  (0 < k ->
   coefficient_of_variation (map (Z.mul k) values)
   = coefficient_of_variation values)
  /\ (k < 0 ->
      coefficient_of_variation (map (Z.mul k) values)
      = (- coefficient_of_variation values)%R).
Proof.
  rewrite !coefficient_of_variation_cases, length_map, sum_Z_scale,
    population_std_dev_scale, mean_R_scale.
  destruct (Nat.ltb_spec (length values) 2) as [Hlt|Hge];
    [split; intros _; lra|].
  destruct (Z.eqb_spec (sum_Z values) 0) as [Hz|Hnz].
  - rewrite Hz, Z.mul_0_r. cbn [Z.eqb]. split; intros _; lra.
  - assert (Hm : mean_R values <> 0%R).
    { intros Hm. apply Hnz. now apply (mean_R_zero_iff _ Hge). }
    split; intros Hk.
    + destruct (Z.eqb_spec (k * sum_Z values) 0) as [E|_]; [nia|].
      assert (0 < IZR k)%R by (apply IZR_lt; lia).
      rewrite Rabs_right by lra. field. split; [exact Hm | lra].
    + destruct (Z.eqb_spec (k * sum_Z values) 0) as [E|_]; [nia|].
      assert (IZR k < 0)%R by (apply IZR_lt; lia).
      rewrite Rabs_left by lra. field. split; [exact Hm | lra].
Qed.

Lemma coefficient_of_variation_scale_witness :
  coefficient_of_variation (map (Z.mul 1000000) [1; 3])
  = coefficient_of_variation [1; 3]
  /\ coefficient_of_variation (map (Z.mul (-1)) [1; 3])
     = (- coefficient_of_variation [1%Z; 3%Z])%R.
Proof.
  split.
  - apply (proj1 (coefficient_of_variation_scale 1000000 [1; 3])). reflexivity.
  - apply (proj2 (coefficient_of_variation_scale (-1) [1; 3])). reflexivity.
Defined.

(** ** A single photo *)






(** ** Comparator: when it completes, and what it shows *)

Section IoInversion.
Context {L : Type}.




End IoInversion.













(** X15: the stage rows of the absolute table: the relative change is the
    delta over the baseline when the baseline is positive, so the two have the
    same sign, and it is 0, without a division, when the baseline is 0 or
    negative. *)
Theorem abs_row_relative_change
    (small large : gmap string Q) (stage : string * string) :
  has_schema small -> has_schema large -> In stage stages ->
  exists small_ms large_ms delta pct_change,
    abs_row small large stage
    = ([AbsRow (fst stage) small_ms large_ms delta pct_change], Ok tt)
    /\ small_ms = summary_get small (snd stage)
    /\ large_ms = summary_get large (snd stage)
    /\ delta = (large_ms - small_ms)%Q
    /\ ((0 < small_ms)%Q -> (pct_change == delta / small_ms * 100)%Q)
    /\ ((small_ms <= 0)%Q -> pct_change = 0%Q).
Proof.
  intros Hs Hl Hin.
  eexists _, _, _, _. split; [apply (abs_row_ok _ _ Hs Hl _ Hin)|].
  split; [reflexivity|]. split; [reflexivity|]. split; [reflexivity|].
  unfold rel_change. split; intros Hb.
  - destruct (Qle_bool (summary_get small (snd stage)) 0) eqn:E; cbn [negb].
    + apply Qle_bool_iff in E. exfalso. exact (Qlt_not_le _ _ Hb E).
    + field. intros H. rewrite H in Hb. discriminate.
  - apply Qle_bool_iff in Hb. now rewrite Hb.
Qed.

Lemma abs_row_relative_change_witness :
  exists small_ms large_ms delta pct_change,
    abs_row (summary small_run) (summary large_run) ("Hash", "AvgHashMs")
    = ([AbsRow "Hash" small_ms large_ms delta pct_change], Ok tt)
    /\ small_ms = summary_get (summary small_run) "AvgHashMs"
    /\ large_ms = summary_get (summary large_run) "AvgHashMs"
    /\ delta = (large_ms - small_ms)%Q
    /\ ((0 < small_ms)%Q -> (pct_change == delta / small_ms * 100)%Q)
    /\ ((small_ms <= 0)%Q -> pct_change = 0%Q).
Proof.
  apply (abs_row_relative_change (summary small_run) (summary large_run)
           ("Hash", "AvgHashMs")).
  - apply has_schema_make.
  - apply has_schema_make.
  - now left.
Defined.

(** X16: [main] of the comparator: anything but two arguments after the
    program name prints the usage line and exits with status 1, reading no
    file; with two arguments both files are loaded before anything is printed,
    so a missing file leaves no output, and with both files there the run is
    the comparison of the two. *)
Theorem compare_main_arguments
    (files : gmap string Dataset) (argv : list string) :
  (length argv <> 3%nat ->
   compare_main files argv
   = ([CText "Usage: python3 compare_datasets.py perfstats_small.json perfstats_large.json"],
      Raise (SystemExit 1)))
  /\ (forall prog small_file large_file,
         argv = [prog; small_file; large_file] ->
         compare_main files argv
         = match files !! small_file, files !! large_file with
           | Some small, Some large => compare_summaries small large
           | None, _ => ([], Raise (FileNotFoundError small_file))
           | Some _, None => ([], Raise (FileNotFoundError large_file))
           end).
Proof.
  split.
  - intros Hlen. destruct argv as [|a [|b [|c [|d rest]]]]; try reflexivity.
    now elim Hlen.
  - intros prog small_file large_file ->. unfold compare_main, load_perfstats.
    destruct (files !! small_file) as [small|]; [|reflexivity].
    rewrite bind_lift_ok.
    destruct (files !! large_file) as [large|]; [|reflexivity].
    now rewrite bind_lift_ok.
Qed.

Lemma compare_main_arguments_witness :
  compare_main ∅ ["compare_datasets.py"; "small.json"]
  = ([CText "Usage: python3 compare_datasets.py perfstats_small.json perfstats_large.json"],
     Raise (SystemExit 1))
  /\ compare_main ∅ ["compare_datasets.py"; "small.json"; "large.json"]
     = ([], Raise (FileNotFoundError "small.json")).
Proof.
  split.
  - apply (proj1 (compare_main_arguments ∅
                    ["compare_datasets.py"; "small.json"])).
    discriminate.
  - rewrite (proj2 (compare_main_arguments ∅
                      ["compare_datasets.py"; "small.json"; "large.json"])
               "compare_datasets.py" "small.json" "large.json" eq_refl).
    now rewrite lookup_empty.
Defined.

(** ** Command line: every argument list *)

Lemma words_nil_last (argv : list cli_arg) :
  words argv = [] -> argv <> [] -> last argv = Some PatternFlag.
Proof.
  induction argv as [|a argv IH]; intros Hw Hne; [contradiction|].
  destruct a as [w|]; [discriminate|].
  rewrite last_cons. destruct argv as [|b argv]; [reflexivity|].
  rewrite IH; [reflexivity | exact Hw | discriminate].
Qed.

Lemma words_last_nonempty (argv : list cli_arg) (w : string) (ws : list string) :
  words argv = w :: ws -> forall a, last (a :: argv) = last argv.
Proof.
  intros Hw a. rewrite last_cons.
  destruct argv as [|b argv]; [discriminate|].
  now destruct (last (b :: argv)) eqn:E; [|apply last_None in E].
Qed.

(** With every positional argument filled, only flags may follow. *)
Lemma consume_flags (argv : list cli_arg) (ns : Namespace) :
  match words argv with
  | [] =>
      exists ns',
        consume [] argv ns = Ok ns'
        /\ ns' !! "perfstats_file" = ns !! "perfstats_file"
        /\ ns' !! "pattern" = match argv with
                              | [] => ns !! "pattern"
                              | _ :: _ => Some (VBool true)
                              end
  | _ :: _ => consume [] argv ns = Raise (SystemExit 2)
  end.
Proof.
  revert ns. induction argv as [|a argv IH]; intros ns.
  - exists ns. repeat split.
  - destruct a as [w|]; [reflexivity|].
    change (words (PatternFlag :: argv)) with (words argv).
    cbn [consume]. specialize (IH (<[flag_dest := VBool true]> ns)).
    destruct (words argv) as [|w ws]; [|exact IH].
    destruct IH as (ns' & Hc & Hf & Hp). exists ns'.
    split; [exact Hc|]. split.
    + rewrite Hf. apply lookup_insert_ne. discriminate.
    + rewrite Hp. destruct argv; [apply lookup_insert_eq | reflexivity].
Qed.

Lemma consume_pattern (argv : list cli_arg) (ns : Namespace) :
  match words argv with
  | [p] =>
      exists ns',
        consume ["pattern"] argv ns = Ok ns'
        /\ ns' !! "perfstats_file" = ns !! "perfstats_file"
        /\ ns' !! "pattern" = Some match last argv with
                                   | Some PatternFlag => VBool true
                                   | _ => VStr p
                                   end
  | _ => consume ["pattern"] argv ns = Raise (SystemExit 2)
  end.
Proof.
  revert ns. induction argv as [|a argv IH]; intros ns; [reflexivity|].
  destruct a as [w|].
  - change (words (Word w :: argv)) with (w :: words argv).
    cbn [consume]. pose proof (consume_flags argv (<["pattern" := VStr w]> ns)) as H.
    destruct (words argv) as [|w' ws] eqn:Hw; [|exact H].
    destruct H as (ns' & Hc & Hf & Hp). exists ns'.
    split; [exact Hc|]. split.
    + rewrite Hf. apply lookup_insert_ne. discriminate.
    + rewrite Hp. destruct argv as [|b argv]; [apply lookup_insert_eq|].
      rewrite last_cons, (words_nil_last (b :: argv) Hw) by discriminate.
      reflexivity.
  - change (words (PatternFlag :: argv)) with (words argv).
    cbn [consume]. specialize (IH (<[flag_dest := VBool true]> ns)).
    destruct (words argv) as [|p [|p' ws]] eqn:Hw; try exact IH.
    destruct IH as (ns' & Hc & Hf & Hp). exists ns'.
    split; [exact Hc|]. split.
    + rewrite Hf. apply lookup_insert_ne. discriminate.
    + now rewrite (words_last_nonempty _ _ _ Hw).
Qed.

Lemma consume_both (argv : list cli_arg) (ns : Namespace) :
  match words argv with
  | [file; p] =>
      exists ns',
        consume positional_dests argv ns = Ok ns'
        /\ ns' !! "perfstats_file" = Some (VStr file)
        /\ ns' !! "pattern" = Some match last argv with
                                   | Some PatternFlag => VBool true
                                   | _ => VStr p
                                   end
  | _ => consume positional_dests argv ns = Raise (SystemExit 2)
  end.
Proof.
  revert ns. induction argv as [|a argv IH]; intros ns; [reflexivity|].
  destruct a as [w|].
  - change (words (Word w :: argv)) with (w :: words argv).
    cbn [consume positional_dests].
    pose proof (consume_pattern argv (<["perfstats_file" := VStr w]> ns)) as H.
    destruct (words argv) as [|p [|p' ws]] eqn:Hw; try exact H.
    destruct H as (ns' & Hc & Hf & Hp). exists ns'.
    split; [exact Hc|]. split.
    + rewrite Hf. apply lookup_insert_eq.
    + now rewrite (words_last_nonempty _ _ _ Hw).
  - change (words (PatternFlag :: argv)) with (words argv).
    cbn [consume positional_dests].
    specialize (IH (<[flag_dest := VBool true]> ns)).
    destruct (words argv) as [|file [|p [|p' ws]]] eqn:Hw; try exact IH.
    destruct IH as (ns' & Hc & Hf & Hp). exists ns'.
    split; [exact Hc|]. split; [exact Hf|].
    now rewrite (words_last_nonempty _ _ _ Hw).
Qed.

Lemma filter_photos_true (recs : list PhotoRecord) :
  filter_photos recs (VBool true) (VBool true)
  = match recs with
    | [] => Ok []
    | _ :: _ => Raise TypeError
    end.
Proof. now destruct recs. Qed.

(** X17: the records [main] hands to the analysis, for every command line and
    every set of files. The command line needs exactly two words, or the run
    exits with status 2 before any file is read; a missing file is the next
    error. Flags before the last word have no effect. When a flag is the last
    argument, pattern and mode are both [True], and only a file without
    records gets through. Otherwise the pattern is the second word and the
    mode is whether that word is non-empty: substring mode for every pattern
    but the empty one. *)
Theorem main_selection_by_arguments
    (files : gmap string Dataset) (argv : list cli_arg) :
  main_selection files argv
  = match words argv with
    | [file; p] =>
        match files !! file with
        | None => Raise (FileNotFoundError file)
        | Some data =>
            match last argv with
            | Some PatternFlag =>
                match detailed data with
                | [] => Ok ([], VBool true)
                | _ :: _ => Raise TypeError
                end
            | _ =>
                (fun photos => (photos, VStr p))
                  <$> filter_photos (detailed data) (VStr p)
                        (VBool (negb (String.eqb p "")))
            end
        end
    | _ => Raise (SystemExit 2)
    end.
Proof.
  unfold main_selection, parse_args.
  pose proof (consume_both argv (set_defaults ∅)) as H.
  destruct (words argv) as [|file [|p [|p' ws]]]; try (now rewrite H).
  destruct H as (ns & -> & Hf & Hp).
  cbn [mbind result_bind]. unfold getattr. rewrite Hf, Hp.
  cbn [mbind result_bind load_perfstats].
  destruct (files !! file) as [data|]; [|reflexivity].
  cbn [mbind result_bind].
  destruct (last argv) as [[w|]|].
  - change (filter_photos (detailed data) (VStr p) (VStr p))
      with (filter_photos (detailed data) (VStr p)
              (VBool (negb (String.eqb p "")))).
    now destruct (filter_photos _ _ _).
  - rewrite filter_photos_true. now destruct (detailed data).
  - change (filter_photos (detailed data) (VStr p) (VStr p))
      with (filter_photos (detailed data) (VStr p)
              (VBool (negb (String.eqb p "")))).
    now destruct (filter_photos _ _ _).
Qed.

(** X18: what [main] prints for files whose records have 64-bit fields:
    nothing when the selection fails, the no-match message when it is empty,
    and otherwise the report, which starts with the title made from the
    pattern, worded "files" for every pattern that is true, the non-empty
    strings included.  The run then completes exactly when the total time of
    the selection is not 0. *)
Theorem main_report
    (files : gmap string Dataset) (argv : list cli_arg) :
  (forall name data,
      files !! name = Some data -> machine_sized (detailed data)) ->
  match main_selection files argv with
  | Raise e => main files argv = ([], Raise e)
  | Ok ([], _) =>
      main files argv = ([Text "No photos found matching pattern!"], Ok tt)
  | Ok (photos, pattern) =>
      head (output (main files argv))
      = Some (Title (upper (py_str pattern
                            ++ (if truthy pattern then " files"
                                else " pattern")))
                (length photos))
      /\ (outcome (main files argv) = Ok tt
          <-> sum_Z (map TotalTime photos) <> 0)
  end.
Proof.
  intros _.
  unfold main. destruct (main_selection files argv) as [[photos pattern]|e];
    [|reflexivity].
  rewrite bind_lift_ok.
  destruct photos as [|p0 l0] eqn:E; [reflexivity|]. rewrite <- E.
  assert (Hne : photos <> []) by (subst; discriminate).
  cbv zeta.
  set (label := if truthy pattern then (py_str pattern ++ " files")%string
                else (py_str pattern ++ " pattern")%string).
  split.
  - rewrite (analyze_photos_unfold _ _ Hne). unfold label.
    now destruct (truthy pattern).
  - destruct (Z.eq_dec (sum_Z (map TotalTime photos)) 0) as [Hz|Hnz].
    + rewrite (analyze_photos_throughput _ _ Hne Hz). cbn [outcome snd].
      split; [discriminate | contradiction].
    + destruct (analyze_photos_report photos label Hne Hnz)
        as (s1 & s2 & s3 & s4 & -> & _).
      split; [intros _; exact Hnz | reflexivity].
Qed.

(** The sample file with the pattern ".dng": one photo, a complete report. *)
Lemma main_report_witness :
  head (output (main sample_files [Word "perfstats.json"; Word ".dng"]))
  = Some (Title ".DNG FILES" 1)
  /\ (outcome (main sample_files [Word "perfstats.json"; Word ".dng"]) = Ok tt
      <-> sum_Z (map TotalTime [timed_photo "a.dng" 30000000 90000000]) <> 0).
Proof.
  assert (E : main_selection sample_files [Word "perfstats.json"; Word ".dng"]
              = Ok ([timed_photo "a.dng" 30000000 90000000], VStr ".dng"))
    by (vm_compute; reflexivity).
  assert (H : forall name data,
             sample_files !! name = Some data -> machine_sized (detailed data)).
  { intros name data Hd. unfold sample_files in Hd.
    apply lookup_singleton_Some in Hd as [_ <-]. cbn [detailed].
    split; [reflexivity|]. unfold sample_photos.
    repeat (apply List.Forall_cons; [solve_int64_fields|]).
    apply List.Forall_nil. }
  pose proof (main_report sample_files [Word "perfstats.json"; Word ".dng"] H)
    as R.
  rewrite E in R. exact R.
Defined.

(** ** Stage aggregator: the order of the records and the sum of the shares *)










Lemma sum_Z_cons (x : Z) (l : list Z) : sum_Z (x :: l) = x + sum_Z l.
Proof. unfold sum_Z. cbn [foldl]. rewrite !foldl_Zadd. lia. Qed.

Lemma total_is_sum_of_stages (photos : list PhotoRecord) :
  Forall (fun p => TotalTime p
                   = sum_Z (map (fun sf : string * (PhotoRecord -> Z) =>
                                   snd sf p) stage_fields)) photos ->
  sum_Z (map TotalTime photos)
  = sum_Z (map (fun sf : string * (PhotoRecord -> Z) =>
                  sum_Z (map (snd sf) photos)) stage_fields).
Proof.
  induction 1 as [|p l Hp _ IH]; [reflexivity|].
  cbn [map stage_fields snd] in *. rewrite !sum_Z_cons, IH, Hp.
  unfold sum_Z. cbn [foldl]. lia.
Qed.

(** X20: when the total time of every photo is the sum of its eight stage
    times, the percentage column of the timings table adds up to 100. *)
Theorem stage_percentages_sum (photos : list PhotoRecord) (label : string) :
  photos <> [] ->
  0 < sum_Z (map TotalTime photos) ->
  Forall (fun p => TotalTime p
                   = sum_Z (map (fun sf : string * (PhotoRecord -> Z) =>
                                   snd sf p) stage_fields)) photos ->
  (sum_Q (map snd (stage_rows (output (analyze_photos photos label))))
   == 100)%Q.
Proof.
  intros Hne Hpos Hparts.
  assert (Hnz : sum_Z (map TotalTime photos) <> 0) by lia.
  destruct (analyze_photos_lines photos label Hne Hnz)
    as (s1 & s2 & s3 & s4 & -> & _).
  destruct s1 as [[[? ?] ?] ?], s2 as [[[? ?] ?] ?],
           s3 as [[[? ?] ?] ?], s4 as [[[? ?] ?] ?].
  cbn [output fst]. unfold stage_rows. rewrite !omap_app. fold stage_rows.
  rewrite stage_rows_cv, (average_sign _ _ (len_positive _ Hne)).
  pose proof (len_nonzero photos Hne) as Hlen.
  assert (Hp : (0 <? sum_Z (map TotalTime photos)) = true) by lia.
  rewrite Hp.
  assert (Htotal : ~ (inject_Z (sum_Z (map TotalTime photos)) == 0)%Q).
  { unfold Qeq. cbn. lia. }
  pose proof (total_is_sum_of_stages photos Hparts) as Htot.
  cbn [map stage_fields snd] in Htot. unfold sum_Z at 2 in Htot.
  cbn [foldl] in Htot.
  cbn [omap list_omap map stage_fields fst snd app sum_Q foldl].
  generalize dependent (sum_Z (map TotalTime photos)). intros total.
  intros _ _ _ Htotal ->. revert Htotal.
  rewrite !inject_Z_plus. intros Htotal. field.
  split; [exact Hlen|]. intros Hz. apply Htotal. rewrite <- Hz. ring.
Qed.

Lemma stage_percentages_sum_witness :
  (sum_Q (map snd (stage_rows
                     (output (analyze_photos
                                [timed_photo "a.dng" 2000000 30000000;
                                 timed_photo "b.dng" 4000000 32000000]
                                "a files"))))
   == 100)%Q.
Proof.
  apply stage_percentages_sum.
  - discriminate.
  - reflexivity.
  - repeat constructor.
Defined.
